(** * WixMysql: the Wix external-database adapter over MySQL

    A shallow embedding of the two source trees of the repository:

    - [queryExecutor.js] (the query executor),
    - [server.js] as found in [WIX - HOSTINGER - 1.0/] (module [Hostinger])
      and the [server.js] found together with [queryExecutor.js]
      (module [Server]).  The two servers share most handlers verbatim;
      the shared ones are embedded once, in the modules [Shared] and
      [Schema].

    JavaScript values are embedded as an inductive type of JSON values,
    strings as byte strings, and the handlers as functions from the parsed
    request body to what they hand to [executeQuery] (or to the reply they
    send without reaching the database). *)

From Stdlib Require Import String Ascii List ZArith Lia Bool DecimalString.
Import ListNotations.

Local Open Scope list_scope.
Local Open Scope string_scope.

(** ** JavaScript values and the primitives the handlers use *)

Module Js.

(** JSON values as [express.json()] produces them.  Numbers are integers:
    the handlers only test numbers ([typeof], truthiness) and pass them on.
    An object is the list of its own properties in enumeration order (the
    order of [Object.keys], [Object.values] and [Object.entries]); its keys
    are pairwise distinct. *)
#[warnings="-register-all"]
Inductive value : Type :=
| VUndefined
| VNull
| VBool (b : bool)
| VNum (n : Z)
| VStr (s : string)
| VArr (l : list value)
| VObj (l : list (string * value)).

(** [!!v] *)
Definition truthy (v : value) : bool :=
  match v with
  | VUndefined | VNull => false
  | VBool b => b
  | VNum n => negb (n =? 0)%Z
  | VStr s => negb (s =? "")
  | VArr _ | VObj _ => true
  end.

(** [a || b] *)
Definition or_else (a b : value) : value := if truthy a then a else b.

(** [typeof v] *)
Definition typeof (v : value) : string :=
  match v with
  | VUndefined => "undefined"
  | VNull | VArr _ | VObj _ => "object"
  | VBool _ => "boolean"
  | VNum _ => "number"
  | VStr _ => "string"
  end.

(** [Array.isArray(v)] *)
Definition isArray (v : value) : bool :=
  match v with VArr _ => true | _ => false end.

(** [v === s] for a string literal [s] *)
Definition is_str (s : string) (v : value) : bool :=
  match v with VStr t => (t =? s) | _ => false end.

(** Decimal rendering of an array index and of an integer. *)
Definition string_of_nat (n : nat) : string :=
  NilZero.string_of_uint (Nat.to_uint n).

Definition string_of_Z (n : Z) : string :=
  NilZero.string_of_int (Z.to_int n).

(** Own lookup in a property list. *)
Fixpoint lookup (k : string) (o : list (string * value)) : value :=
  match o with
  | [] => VUndefined
  | (k', v) :: o' => if k' =? k then v else lookup k o'
  end.

(** [v.k] for a value [v] that is neither [null] nor [undefined], and a
    name [k] that no prototype defines except [length].  The [length] of a
    string is counted in bytes of its UTF-8 text, which is zero, or
    positive, exactly when the count of UTF-16 code units is: the handlers
    ask nothing else of it. *)
Definition prop (k : string) (v : value) : value :=
  match v with
  | VObj o => lookup k o
  | VArr l => if k =? "length" then VNum (Z.of_nat (List.length l)) else VUndefined
  | VStr s => if k =? "length" then VNum (Z.of_nat (String.length s)) else VUndefined
  | _ => VUndefined
  end.

(** Destructuring [const { a, b } = v] throws on [null] and [undefined]. *)
Definition nullish (v : value) : bool :=
  match v with VUndefined | VNull => true | _ => false end.

Fixpoint indexed {A : Type} (i : nat) (l : list A) : list (string * A) :=
  match l with
  | [] => []
  | x :: l' => (string_of_nat i, x) :: indexed (S i) l'
  end.

(** Strings are the bytes of their UTF-8 text.  A byte [10xxxxxx]
    continues the character begun before it. *)
Definition continuation (c : ascii) : bool :=
  let n := nat_of_ascii c in (128 <=? n)%nat && (n <? 192)%nat.

(** The bytes that continue a character begun before the string, and the
    characters of the rest. *)
Fixpoint sequences (s : string) : string * list string :=
  match s with
  | EmptyString => (EmptyString, [])
  | String c s' =>
      let '(pending, rest) := sequences s' in
      if continuation c then (String c pending, rest)
      else (EmptyString, String c pending :: rest)
  end.

(** The code points of a string, each as the string of its bytes: what
    [for (const c of s)] iterates over. *)
Definition code_points (s : string) : list string :=
  let '(pending, rest) := sequences s in
  if pending =? "" then rest else pending :: rest.

(** A surrogate [x] (from D800 to DFFF) alone in a string, written as a
    three-byte sequence. *)
Definition surrogate (x : N) : string :=
  String (ascii_of_N (224 + x / 4096)%N)
    (String (ascii_of_N (128 + (x / 64) mod 64)%N)
       (String (ascii_of_N (128 + x mod 64)%N) EmptyString)).

(** The UTF-16 code units of a code point: itself, or the two surrogates
    of a code point beyond FFFF (a four-byte sequence). *)
Definition code_units (c : string) : list string :=
  match c with
  | String b0 (String b1 (String b2 (String b3 EmptyString))) =>
      let point := ((N_of_ascii b0 mod 8) * 262144 + (N_of_ascii b1 mod 64) * 4096
                    + (N_of_ascii b2 mod 64) * 64 + N_of_ascii b3 mod 64)%N in
      let v := (point - 65536)%N in
      [surrogate (55296 + v / 1024)%N; surrogate (56320 + v mod 1024)%N]
  | _ => [c]
  end.

(** The characters [s[0]], [s[1]], ... of a string: its UTF-16 code
    units. *)
Definition chars (s : string) : list value :=
  map VStr (flat_map code_units (code_points s)).

(** [Object.entries(v)] for a value that is neither [null] nor [undefined]:
    own enumerable properties; arrays and strings expose their indices,
    numbers and booleans have none. *)
Definition entries (v : value) : list (string * value) :=
  match v with
  | VObj o => o
  | VArr l => indexed 0 l
  | VStr s => indexed 0 (chars s)
  | _ => []
  end.

(** [Object.keys(v)] and [Object.values(v)] *)
Definition keys (v : value) : list string := map fst (entries v).
Definition values (v : value) : list value := map snd (entries v).

(** [l.join(sep)] on an array of strings *)
Definition join (sep : string) (l : list string) : string := String.concat sep l.

(** [s.includes(pat)] *)
Fixpoint includes (pat s : string) : bool :=
  String.prefix pat s ||
  match s with
  | EmptyString => false
  | String _ s' => includes pat s'
  end.

Definition lower (c : ascii) : ascii :=
  let n := nat_of_ascii c in
  if (65 <=? n)%nat && (n <=? 90)%nat then ascii_of_nat (n + 32) else c.

(** [s.toLowerCase()]; beyond ASCII the bytes of a UTF-8 string are left
    as they are. *)
Fixpoint toLowerCase (s : string) : string :=
  match s with
  | EmptyString => EmptyString
  | String c s' => String (lower c) (toLowerCase s')
  end.

(** [keys.indexOf(k)], [-1] when absent *)
Fixpoint indexOf (k : string) (l : list string) : Z :=
  match l with
  | [] => (-1)%Z
  | k' :: l' =>
      if k' =? k then 0%Z
      else let i := indexOf k l' in if (i <? 0)%Z then (-1)%Z else (i + 1)%Z
  end.

(** [l.filter((_, index) => p(index))] *)
Fixpoint filter_index {A : Type} (p : Z -> bool) (i : Z) (l : list A) : list A :=
  match l with
  | [] => []
  | x :: l' =>
      if p i then x :: filter_index p (i + 1)%Z l' else filter_index p (i + 1)%Z l'
  end.

(** [String(v)], for the values on which it returns as follows: an integer
    prints in full, as JavaScript prints those below 10^21 in magnitude, and
    an object prints as [[object Object]], as those without an own
    [toString] property do (on an object with one, which JSON cannot make
    a function, [String] throws). *)
Fixpoint toString (v : value) : string :=
  match v with
  | VUndefined => "undefined"
  | VNull => "null"
  | VBool true => "true"
  | VBool false => "false"
  | VNum n => string_of_Z n
  | VStr s => s
  | VArr l =>
      (fix elems (l : list value) : string :=
         match l with
         | [] => ""
         | [x] => if nullish x then "" else toString x
         | x :: l' => (if nullish x then "" else toString x) ++ "," ++ elems l'
         end) l
  | VObj _ => "[object Object]"
  end.

End Js.
Import Js.

(** ** The comparison [v > 0] on a value that is not a number *)

Module Coercion.

Definition bytes (l : list nat) : string :=
  fold_right (fun n s => String (ascii_of_nat n) s) EmptyString l.

(** White space and line terminators, which [ToNumber] strips from both
    ends of a string. *)
Definition spaces : list string :=
  map bytes
    [[9]; [10]; [11]; [12]; [13]; [32]; [194; 160]; [225; 154; 128];
     [226; 128; 128]; [226; 128; 129]; [226; 128; 130]; [226; 128; 131];
     [226; 128; 132]; [226; 128; 133]; [226; 128; 134]; [226; 128; 135];
     [226; 128; 136]; [226; 128; 137]; [226; 128; 138]; [226; 128; 168];
     [226; 128; 169]; [226; 128; 175]; [226; 129; 159]; [227; 128; 128];
     [239; 187; 191]].

Fixpoint strip_prefix (p s : string) : option string :=
  match p, s with
  | EmptyString, _ => Some s
  | String a p', String b s' => if Ascii.eqb a b then strip_prefix p' s' else None
  | String _ _, EmptyString => None
  end.

Fixpoint strip_any (ps : list string) (s : string) : option string :=
  match ps with
  | [] => None
  | p :: ps' =>
      match strip_prefix p s with
      | Some s' => Some s'
      | None => strip_any ps' s
      end
  end.

Fixpoint trim_start (fuel : nat) (ps : list string) (s : string) : string :=
  match fuel with
  | O => s
  | S fuel' =>
      match strip_any ps s with
      | Some s' => trim_start fuel' ps s'
      | None => s
      end
  end.

Fixpoint reverse (s acc : string) : string :=
  match s with
  | EmptyString => acc
  | String c s' => reverse s' (String c acc)
  end.

Definition trim (s : string) : string :=
  let s := trim_start (String.length s) spaces s in
  reverse
    (trim_start (String.length s) (map (fun p => reverse p "") spaces) (reverse s ""))
    "".

(** The value of a digit in a radix up to 16. *)
Definition digit (radix : N) (c : ascii) : option N :=
  let n := N_of_ascii c in
  let v := if (48 <=? n)%N && (n <=? 57)%N then Some (n - 48)%N
           else if (97 <=? n)%N && (n <=? 102)%N then Some (n - 87)%N
           else if (65 <=? n)%N && (n <=? 70)%N then Some (n - 55)%N
           else None in
  match v with
  | Some d => if (d <? radix)%N then Some d else None
  | None => None
  end.

(** The leading digits of a string, and what follows them. *)
Fixpoint digits (radix : N) (s : string) : list N * string :=
  match s with
  | EmptyString => ([], s)
  | String c s' =>
      match digit radix c with
      | Some d => let '(ds, rest) := digits radix s' in (d :: ds, rest)
      | None => ([], s)
      end
  end.

Definition number (radix : N) (ds : list N) : N :=
  fold_left (fun n d => (n * radix + d)%N) ds 0%N.

Definition sign (s : string) : bool * string :=
  match s with
  | String "+" s' => (false, s')
  | String "-" s' => (true, s')
  | _ => (false, s)
  end.

(** A literal [0x..], [0o..] or [0b..] is positive when it has digits, all
    of its radix, and one of them is not 0. *)
Definition radix_positive (radix : N) (s : string) : bool :=
  let '(ds, rest) := digits radix s in
  negb (Nat.eqb (List.length ds) 0) && (rest =? "") && (0 <? number radix ds)%N.

(** The exponent part: [None] when what follows the mantissa is no
    exponent part. *)
Definition exponent (s : string) : option Z :=
  match s with
  | EmptyString => Some 0%Z
  | String c s' =>
      if Ascii.eqb c "e" || Ascii.eqb c "E" then
        let '(negative, s1) := sign s' in
        let '(ds, rest) := digits 10 s1 in
        if Nat.eqb (List.length ds) 0 || negb (rest =? "") then None
        else Some (if negative then (- Z.of_N (number 10 ds))%Z
                   else Z.of_N (number 10 ds))
      else None
  end.

(** A decimal literal is positive when it is well formed, not negative,
    and its value [m * 10^k] does not round to zero: the least positive
    double is 2^-1074, and what is at most half of it rounds to 0. *)
Definition decimal_positive (s : string) : bool :=
  let '(negative, s1) := sign s in
  if s1 =? "Infinity" then negb negative
  else
    let '(whole, s2) := digits 10 s1 in
    let '(fraction, s3) :=
      match s2 with
      | String "." s' => digits 10 s'
      | _ => ([], s2)
      end in
    if Nat.eqb (List.length whole + List.length fraction) 0 then false
    else
      match exponent s3 with
      | None => false
      | Some e =>
          let m := Z.of_N (number 10 (whole ++ fraction)) in
          let k := (e - Z.of_nat (List.length fraction))%Z in
          negb negative && (0 <? m)%Z
          && ((0 <=? k)%Z || (10 ^ (- k) <? m * 2 ^ 1075)%Z)
      end.

(** [ToNumber(s) > 0] for a string [s]. *)
Definition text_positive (s : string) : bool :=
  match trim s with
  | String "0" (String c s') =>
      if Ascii.eqb c "x" || Ascii.eqb c "X" then radix_positive 16 s'
      else if Ascii.eqb c "o" || Ascii.eqb c "O" then radix_positive 8 s'
      else if Ascii.eqb c "b" || Ascii.eqb c "B" then radix_positive 2 s'
      else decimal_positive (trim s)
  | t => decimal_positive t
  end.

(** [v > 0] for a [v] that is not a number: [null] is 0, a boolean is 0 or
    1, a string is the number it spells, an array is its elements joined
    by commas, and an object is [[object Object]], which is no number.  On
    an object with an own [toString] property the comparison throws a
    TypeError instead; [sort.map], which the handlers call next when the
    comparison holds, throws one too (the [sort] at hand is no array), so
    the comparison is taken to hold there. *)
Definition positive (v : value) : bool :=
  match v with
  | VUndefined | VNull => false
  | VBool b => b
  | VNum n => (0 <? n)%Z
  | VStr s => text_positive s
  | VArr _ => text_positive (toString v)
  | VObj o => match lookup "toString" o with VUndefined => false | _ => true end
  end.

End Coercion.


(** ** The mysql2 driver, as the repository uses it *)

Module Mysql.

(** What [mysql.escapeId] of the mysql2 package returns (the package is a
    dependency, not part of the repository): the identifier between
    backticks, embedded backticks doubled, and a dot turned into a
    qualified name; an array gives the comma-separated list of its escaped
    elements.  The handlers are embedded over an arbitrary escaping
    function; this one instantiates them on concrete requests. *)
Fixpoint replace_char (c : ascii) (by_ : string) (s : string) : string :=
  match s with
  | EmptyString => EmptyString
  | String d s' =>
      if Ascii.eqb d c then by_ ++ replace_char c by_ s'
      else String d (replace_char c by_ s')
  end.

Definition quote_id (s : string) : string :=
  "`" ++ replace_char "." "`.`" (replace_char "`" "``" s) ++ "`".

Fixpoint escapeId (v : value) : string :=
  match v with
  | VArr l =>
      (fix elems (l : list value) : string :=
         match l with
         | [] => ""
         | [x] => escapeId x
         | x :: l' => escapeId x ++ ", " ++ elems l'
         end) l
  | _ => quote_id (toString v)
  end.

End Mysql.

(** ** queryExecutor.js *)

Module QueryExecutor.

(** What a [throw] carries: a [TypeError] of the runtime, or the reason a
    driver promise was rejected with. *)
Inductive error : Type :=
| TypeError
| Rejected (reason : value).

(** How a call completes. *)
Inductive completion (A : Type) : Type :=
| Return (a : A)
| Throw (err : error).
Arguments Return {A} a.
Arguments Throw {A} err.

(** What the call does to the outside world, in order. *)
Inductive event : Type :=
| Execute_ (cid : nat) (query : string) (binds : list value)
| End_ (cid : nat)
| Log (msg : string)
| LogWarn (msg : string)
| LogError (msg : string).

(** A computation: its completion and the events it caused. *)
Definition io (A : Type) : Type := (completion A * list event)%type.

Definition ret {A : Type} (a : A) : io A := (Return a, []).

Definition throw {A : Type} (e : error) : io A := (Throw e, []).

Definition emit (e : event) : io unit := (Return tt, [e]).

Definition bind {A B : Type} (m : io A) (f : A -> io B) : io B :=
  match m with
  | (Return a, t) => let '(r, t') := f a in (r, t ++ t')%list
  | (Throw e, t) => (Throw e, t)
  end.

(** [try { m } catch (err) { h err }] *)
Definition try_catch {A : Type} (m : io A) (h : error -> io A) : io A :=
  match m with
  | (Throw e, t) => let '(r, t') := h e in (r, t ++ t')%list
  | (Return a, t) => (Return a, t)
  end.

(** [try { m } finally { f }]: the completion of [m] stands unless [f]
    itself throws. *)
Definition finally {A : Type} (m : io A) (f : io unit) : io A :=
  match m, f with
  | (r, t), (Return _, t') => (r, t ++ t')%list
  | (_, t), (Throw e, t') => (Throw e, t ++ t')%list
  end.

Declare Scope io_scope.
Delimit Scope io_scope with io.
Notation "x <- m ;; k" := (bind m (fun x => k))
  (at level 61, m at next level, right associativity) : io_scope.
Notation "m ;;; k" := (bind m (fun _ => k))
  (at level 61, right associativity) : io_scope.

(** A connection of the driver: an identity, what [execute] resolves to
    (the rows, first component of the pair the driver returns) or rejects
    with, and how [end] completes. *)
Record connection : Type := {
  cid : nat;
  execute : string -> list value -> completion value;
  end_ : completion unit
}.

Section Executor.

(** [getConnection] comes from [./mysqlConnector]: it resolves to a
    connection or rejects. *)
Variable getConnection : completion connection.

Local Open Scope io_scope.

(** The [finally] block once [connection] is set. *)
Definition release (connection : connection) : io unit :=
  try_catch
    ((Return tt, [End_ (cid connection)]) ;;;
     match end_ connection with
     | Return _ => emit (Log "Conexão fechada.")
     | Throw err => throw err
     end)
    (fun err => emit (LogError "Erro ao fechar conexão:")).

Definition executeQuery (query : string) (binds : list value) : io value :=
  match getConnection with
  | Throw err =>
      (* [connection] stays undefined: the [finally] block does nothing *)
      finally
        (try_catch (throw err)
           (fun err => emit (LogError "Erro ao executar consulta:") ;;; throw err))
        (ret tt)
  | Return connection =>
      finally
        (try_catch
           (emit (Log "Conexão estabelecida com o banco de dados.") ;;;
            emit (Log "Executando consulta:") ;;;
            emit (Log "Parâmetros:") ;;;
            rows <- (execute connection query binds,
                     [Execute_ (cid connection) query binds]) ;;
            emit (Log "Resultados brutos:") ;;;
            ret (or_else rows (VArr [])))
           (fun err => emit (LogError "Erro ao executar consulta:") ;;; throw err))
        (release connection)
  end.

End Executor.

End QueryExecutor.
Import QueryExecutor.

(** ** server.js: what the handlers are given from outside *)

(** [escapeId] is [mysql.escapeId] of the driver.  [coerced_positive v] is
    the JavaScript comparison [v > 0] for a [v] that is not a number (it
    goes through the floating-point conversion [ToNumber]); the handlers
    reach it only for a [sort] that is an object with a [length]. *)
Class Platform : Type := {
  escapeId : value -> string;
  coerced_positive : value -> bool
}.

(** The platform of the deployed servers: mysql2's escaping, and the
    comparison of the runtime. *)
Definition mysql2 : Platform := {|
  escapeId := Mysql.escapeId;
  coerced_positive := Coercion.positive
|}.

(** What a handler does with a request before it awaits the database:
    it replies at once ([res.status(..).json(..)]), it hands a statement and
    its positional parameters to [executeQuery], or the runtime throws a
    [TypeError] inside its [try] block. *)
Inductive built : Type :=
| Reply (status : Z) (body : value)
| Statement (sql : string) (params : list value)
| Thrown.

Definition error_body (msg : string) : value := VObj [("error", VStr msg)].

(** *** Handlers that are the same text in both servers *)

Module Shared.
Section Handlers.
Context {P : Platform}.

(** [Object.entries(filter).map(([key, value]) => `${mysql.escapeId(key)} = ?`)
    .join(' AND ')] *)
Definition conditions (filter : value) : string :=
  join " AND " (map (fun '(key, _) => escapeId (VStr key) ++ " = ?") (entries filter)).

(** POST /api/items/find *)
Definition items_find (body : list (string * value)) : built :=
  let table := lookup "table" body in
  let filter := lookup "filter" body in
  let limit := lookup "limit" body in
  let offset := lookup "offset" body in
  let escapedTable := escapeId table in
  let sql := "SELECT * FROM " ++ escapedTable in
  let params := @nil value in
  let '(sql, params) :=
    if truthy filter
    then (sql ++ " WHERE " ++ conditions filter, (params ++ values filter)%list)
    else (sql, params) in
  let '(sql, params) :=
    if truthy limit then (sql ++ " LIMIT ?", (params ++ [limit])%list) else (sql, params) in
  let '(sql, params) :=
    if truthy offset then (sql ++ " OFFSET ?", (params ++ [offset])%list) else (sql, params) in
  Statement sql params.

(** POST /api/query/data/count *)
Definition data_count (body : list (string * value)) : built :=
  let collectionName := lookup "collectionName" body in
  let filter := lookup "filter" body in
  if negb (truthy collectionName) then
    Reply 400 (error_body "Nome da coleção é obrigatório")
  else
    let escapedTable := escapeId collectionName in
    let sql := "SELECT COUNT(*) AS totalCount FROM " ++ escapedTable in
    let params := @nil value in
    let '(sql, params) :=
      if truthy filter && (0 <? List.length (keys filter))%nat
      then (sql ++ " WHERE " ++ conditions filter, (params ++ values filter)%list)
      else (sql, params) in
    Statement sql params.

(** POST /api/query/data/insert *)
Definition data_insert (body : list (string * value)) : built :=
  let collectionName := lookup "collectionName" body in
  let item := lookup "item" body in
  let data := lookup "data" body in
  if negb (truthy collectionName) || negb (typeof collectionName =? "string") then
    Reply 400 (error_body "Nome da coleção é obrigatório e deve ser uma string.")
  else
    let payload := or_else item data in
    if negb (truthy payload) || negb (typeof payload =? "object")
       || (List.length (keys payload) =? 0)%nat then
      Reply 400 (error_body
        "Os dados a serem inseridos são obrigatórios e devem ser um objeto não vazio.")
    else
      let escapedTable := escapeId collectionName in
      let '(fields, placeholders, values) :=
        fold_left
          (fun '(fields, placeholders, values) '(key, value) =>
             ((fields ++ [escapeId (VStr key)])%list,
              (placeholders ++ ["?"])%list,
              (values ++ [value])%list))
          (entries payload)
          (@nil string, @nil string, @nil Js.value) in
      let sql := "INSERT INTO " ++ escapedTable ++ " (" ++ join ", " fields
                 ++ ") VALUES (" ++ join ", " placeholders ++ ")" in
      Statement sql values.

(** The callback of [sort.map] in data/find. *)
Definition sort_token (entry : value) : string :=
  let fieldName := prop "fieldName" entry in
  let order := prop "order" entry in
  let escapedField := escapeId fieldName in
  escapedField ++ " " ++ (if is_str "ASC" order then "ASC" else "DESC").

(** [sort.length > 0] for a truthy [sort] *)
Definition length_positive (sort : value) : bool :=
  match prop "length" sort with
  | VNum n => (0 <? n)%Z
  | VUndefined => false
  | v => coerced_positive v
  end.

(** The sort block of data/find: [None] when [sort.map] or the
    destructuring of an entry throws. *)
Definition order_by (sort : value) (sql : string) : option string :=
  if truthy sort && length_positive sort then
    match sort with
    | VArr entries =>
        if existsb nullish entries then None
        else Some (sql ++ " ORDER BY " ++ join ", " (map sort_token entries))
    | _ => None
    end
  else Some sql.

(** The pagination block of data/find. *)
Definition paginate (skip limit : value) (sql : string) (params : list value)
  : string * list value :=
  if (typeof skip =? "number") && (typeof limit =? "number")
  then (sql ++ " LIMIT ?, ?", (params ++ [skip; limit])%list)
  else (sql, params).

End Handlers.
End Shared.

(** *** WIX - HOSTINGER - 1.0/server.js *)

Module Hostinger.
Section Handlers.
Context {P : Platform}.

(** POST /api/query/data/find, with the flat filter *)
Definition data_find (body : list (string * value)) : built :=
  let collectionName := lookup "collectionName" body in
  let filter := lookup "filter" body in
  let sort := lookup "sort" body in
  let skip := lookup "skip" body in
  let limit := lookup "limit" body in
  if negb (truthy collectionName) then
    Reply 400 (error_body "Nome da coleção é obrigatório")
  else
    let escapedTable := escapeId collectionName in
    let sql := "SELECT * FROM " ++ escapedTable in
    let params := @nil value in
    let '(sql, params) :=
      if truthy filter && (0 <? List.length (keys filter))%nat
      then (sql ++ " WHERE " ++ Shared.conditions filter, (params ++ values filter)%list)
      else (sql, params) in
    match Shared.order_by sort sql with
    | None => Thrown
    | Some sql =>
        let '(sql, params) := Shared.paginate skip limit sql params in
        Statement sql params
    end.

End Handlers.
End Hostinger.

(** *** server.js next to queryExecutor.js *)

Module Server.
Section Handlers.
Context {P : Platform}.

(** The filter block of data/find: the structured clause. *)
Definition where_clause (filter : value) (sql : string) (params : list value) : built :=
  if truthy filter && (0 <? List.length (keys filter))%nat then
    let operator := prop "operator" filter in
    let fieldName := prop "fieldName" filter in
    let value := prop "value" filter in
    if negb (is_str "$hasSome" operator || is_str "$eq" operator) then
      Reply 400 (error_body "Operador de filtro inválido")
    else if is_str "$hasSome" operator then
      match value with
      | VArr elems =>
          let placeholders := join "," (map (fun _ : Js.value => "?") elems) in
          Statement (sql ++ " WHERE " ++ escapeId fieldName ++ " IN (" ++ placeholders ++ ")")
                    (params ++ elems)%list
      | _ =>
          Reply 400 (error_body
            "O valor do filtro deve ser um array para o operador $hasSome")
      end
    else if is_str "$eq" operator then
      Statement (sql ++ " WHERE " ++ escapeId fieldName ++ " = ?") (params ++ [value])%list
    else Statement sql params
  else Statement sql params.

(** POST /api/query/data/find *)
Definition data_find (body : list (string * value)) : built :=
  let collectionName := lookup "collectionName" body in
  let filter := lookup "filter" body in
  let sort := lookup "sort" body in
  let skip := lookup "skip" body in
  let limit := lookup "limit" body in
  if negb (truthy collectionName) then
    Reply 400 (error_body "Nome da coleção é obrigatório")
  else
    let escapedTable := escapeId collectionName in
    let sql := "SELECT * FROM " ++ escapedTable in
    let params := @nil value in
    match where_clause filter sql params with
    | Statement sql params =>
        match Shared.order_by sort sql with
        | None => Thrown
        | Some sql =>
            let '(sql, params) := Shared.paginate skip limit sql params in
            Statement sql params
        end
    | early => early
    end.

(** POST /api/query/data/update *)
Definition data_update (body : list (string * value)) : built :=
  let collectionName := lookup "collectionName" body in
  let item := lookup "item" body in
  if negb (truthy collectionName) then
    Reply 400 (error_body "Nome da coleção é obrigatório")
  else if negb (truthy item) || negb (truthy (prop "_id" item)) then
    Reply 400 (error_body "Item inválido ou ID ausente")
  else
    let escapedTable := escapeId collectionName in
    let updateFields :=
      join ", "
        (map (fun key => escapeId (VStr key) ++ " = ?")
           (filter (fun key => negb (key =? "_id")) (keys item))) in
    if updateFields =? "" then
      Reply 400 (error_body "Nenhum campo para atualizar")
    else
      let sql := "UPDATE " ++ escapedTable ++ " SET " ++ updateFields ++ " WHERE _id = ?" in
      let params :=
        (filter_index (fun index => negb (index =? indexOf "_id" (keys item))%Z) 0
           (values item) ++ [prop "_id" item])%list in
      Statement sql params.

(** POST /api/query/data/remove *)
Definition data_remove (body : list (string * value)) : built :=
  let collectionName := lookup "collectionName" body in
  let itemId := lookup "itemId" body in
  if negb (truthy collectionName) then
    Reply 400 (error_body "Nome da coleção é obrigatório")
  else if negb (truthy itemId) then
    Reply 400 (error_body "ID do item é obrigatório")
  else
    let escapedTable := escapeId collectionName in
    let sql := "DELETE FROM " ++ escapedTable ++ " WHERE _id = ?" in
    let params := [itemId] in
    Statement sql params.

End Handlers.
End Server.

(** *** The schema mapper (the same text in both servers) *)

Module Schema.

(** [mapMySQLTypeToWixType].  Each server declares the function twice; the
    later declaration, embedded here, is the one both call sites get. *)
Definition mapMySQLTypeToWixType (mysqlType : string) : string :=
  let mysqlType := toLowerCase mysqlType in
  if includes "int" mysqlType then "number"
  else if includes "varchar" mysqlType || includes "text" mysqlType
          || includes "char" mysqlType then "text"
  else if includes "date" mysqlType || includes "time" mysqlType
          || includes "datetime" mysqlType then "datetime"
  else if includes "float" mysqlType || includes "double" mysqlType
          || includes "decimal" mysqlType then "number"
  else if includes "bool" mysqlType then "boolean"
  else "any".

(** The array index a key spells: a decimal numeral without leading
    zeros, up to 2^32 - 2.  An object enumerates such keys first, in
    ascending order, and its other keys after them, in the order in which
    they were added. *)
Definition index (k : string) : option N :=
  match NilZero.uint_of_string k with
  | Some u =>
      let n := N.of_uint u in
      if (NilZero.string_of_uint (N.to_uint n) =? k) && (n <=? 4294967294)%N
      then Some n else None
  | None => None
  end.

Definition has (k : string) (o : list (string * value)) : bool :=
  existsb (fun '(k', _) => k' =? k) o.

(** [o[k] = v] for a key the object has *)
Fixpoint replace (k : string) (v : value) (o : list (string * value))
  : list (string * value) :=
  match o with
  | [] => []
  | (k', v') :: o' => if k' =? k then (k, v) :: o' else (k', v') :: replace k v o'
  end.

(** [o[k] = v] for a new key that spells the index [n] *)
Fixpoint insert (n : N) (k : string) (v : value) (o : list (string * value))
  : list (string * value) :=
  match o with
  | [] => [(k, v)]
  | (k', v') :: o' =>
      match index k' with
      | Some m => if (m <? n)%N then (k', v') :: insert n k v o'
                  else (k, v) :: (k', v') :: o'
      | None => (k, v) :: (k', v') :: o'
      end
  end.

(** [fields[k] = v] on an object literal, for a key other than
    [__proto__]. *)
Definition set (k : string) (v : value) (o : list (string * value))
  : list (string * value) :=
  if has k o then replace k v o
  else
    match index k with
    | Some n => insert n k v o
    | None => (o ++ [(k, v)])%list
    end.

Definition operators (names : list string) : value := VArr (map VStr names).

Definition text_operators : list string :=
  ["eq"; "lt"; "gt"; "hasSome"; "and"; "lte"; "gte"; "or"; "not"; "ne";
   "startsWith"; "endsWith"].

Definition other_operators : list string :=
  ["eq"; "lt"; "gt"; "hasSome"; "and"; "lte"; "gte"; "or"; "not"; "ne"].

(** [mapMySQLTypeToWixType(column.Type || '')]: a [Type] that is truthy
    and not a string has no [toLowerCase]. *)
Definition column_type (column : value) : completion string :=
  match or_else (prop "Type" column) (VStr "") with
  | VStr mysqlType => Return (mapMySQLTypeToWixType mysqlType)
  | _ => Throw TypeError
  end.

(** The earlier declaration of [mapMySQLTypeToWixType] in each server,
    which the later one replaces before any request is served. *)
Definition mapMySQLTypeToWixType_earlier (mysqlType : string) : string :=
  if includes "int" mysqlType || includes "float" mysqlType
     || includes "double" mysqlType then "number"
  else if includes "date" mysqlType || includes "timestamp" mysqlType then "datetime"
  else "text".

(** One turn of the column loop of schemas/list. *)
Definition list_column (fields : list (string * value)) (column : value)
  : completion (list (string * value)) :=
  if nullish column then Throw TypeError
  else
    let fieldName := or_else (prop "Field" column) (VStr "") in
    match column_type column with
    | Throw err => Throw err
    | Return fieldType =>
        let isRequired := is_str "NO" (prop "Null" column) in
        let isUnique := is_str "PRI" (prop "Key" column) || is_str "UNI" (prop "Key" column) in
        let queryOperators :=
          if fieldType =? "text" then operators text_operators
          else if fieldType =? "number" then operators other_operators
          else if fieldType =? "datetime" then operators other_operators
          else operators other_operators in
        let finalFieldName :=
          if is_str "PRI" (prop "Key" column) then VStr "_id" else fieldName in
        Return (set (toString finalFieldName)
                  (VObj [("displayName", fieldName);
                         ("type", VStr fieldType);
                         ("required", VBool isRequired);
                         ("unique", VBool isUnique);
                         ("queryOperators", queryOperators)])
                  fields)
    end.

(** One turn of the column loop of schemas/find. *)
Definition find_column (fields : list (string * value)) (column : value)
  : completion (list (string * value)) :=
  if nullish column then Throw TypeError
  else
    let fieldName := or_else (prop "Field" column) (VStr "") in
    match column_type column with
    | Throw err => Throw err
    | Return fieldType =>
        let isRequired := is_str "NO" (prop "Null" column) in
        Return (set (toString fieldName)
                  (VObj [("displayName", fieldName);
                         ("type", VStr fieldType);
                         ("queryOperators", operators text_operators);
                         ("required", VBool isRequired)])
                  fields)
    end.

(** [for (const column of columnsResult) { ... }] *)
Fixpoint for_columns
    (turn : list (string * value) -> value -> completion (list (string * value)))
    (columnsResult : list value) (fields : list (string * value))
  : completion (list (string * value)) :=
  match columnsResult with
  | [] => Return fields
  | column :: rest =>
      match turn fields column with
      | Throw err => Throw err
      | Return fields => for_columns turn rest fields
      end
  end.

(** The [fields] object schemas/find starts from. *)
Definition identifier_fields : list (string * value) :=
  [("_id", VObj [("displayName", VStr "_id"); ("type", VStr "text");
                  ("queryOperators", operators text_operators)]);
   ("_owner", VObj [("displayName", VStr "_owner"); ("type", VStr "text");
                    ("queryOperators", operators text_operators)])].

Definition schema (table : value) (fields : list (string * value)) : value :=
  VObj [("displayName", table);
        ("id", table);
        ("allowedOperations",
         VArr (map VStr ["get"; "find"; "count"; "update"; "insert"; "remove"]));
        ("maxPageSize", VNum 50);
        ("ttl", VNum 3600);
        ("fields", VObj fields)].

Section Handlers.
Context {P : Platform}.
Variable getConnection : completion connection.

Local Open Scope io_scope.

(** [for (const table of schemaIds) { ... }] of schemas/find *)
Fixpoint find_each (schemaIds : list value) (schemas : list value) : io (list value) :=
  match schemaIds with
  | [] => ret schemas
  | table :: rest =>
      let escapedTable := escapeId table in
      let sqlColumns := "DESCRIBE " ++ escapedTable in
      columnsResult <- executeQuery getConnection sqlColumns [] ;;
      match columnsResult with
      | VArr columns =>
          fields <- (for_columns find_column columns identifier_fields, []) ;;
          find_each rest (schemas ++ [schema table fields])%list
      | _ =>
          emit (LogWarn ("Tabela " ++ toString table
                         ++ " não encontrada ou resultados inválidos.")) ;;;
          find_each rest schemas
      end
  end.

(** [err.message] in a [catch] block, for its completion only: reading it
    throws on [null] and [undefined]. *)
Definition read_message (err : error) : io unit :=
  match err with
  | TypeError => ret tt
  | Rejected reason => if nullish reason then throw TypeError else ret tt
  end.

(** POST /api/query/schemas/find: the status and the JSON body sent. *)
Definition schemas_find (body : list (string * value)) : io (Z * value) :=
  try_catch
    (let schemaIds := lookup "schemaIds" body in
     match schemaIds with
     | VArr (table :: rest) =>
         schemas <- find_each (table :: rest) [] ;;
         ret (200%Z, VObj [("schemas", VArr schemas)])
     | _ =>
         ret (400%Z, error_body "Lista de schemaIds não fornecida ou vazia")
     end)
    (fun err =>
       read_message err ;;;
       emit (LogError "Erro ao encontrar schemas:") ;;;
       ret (500%Z, error_body "Erro interno do servidor")).

End Handlers.
End Schema.

(** ** Vocabulary of the properties *)

(** *** Parameterized statements *)

(** The fixed text the handlers write between identifiers and
    placeholders. *)
Definition keywords : list string :=
  ["SELECT * FROM "; "SELECT COUNT(*) AS totalCount FROM "; "INSERT INTO ";
   "UPDATE "; "DELETE FROM "; " WHERE "; " WHERE _id = "; " SET "; " AND ";
   " = "; " IN ("; ")"; ","; ", "; " ("; ") VALUES ("; " ORDER BY ";
   " ASC"; " DESC"; " LIMIT "; " OFFSET "].

(** [sql_text ids n s]: the text [s] is made of keywords, of identifiers
    taken from [ids] and passed through [escapeId], and of [n] placeholders;
    nothing else is written into it. *)
Inductive sql_text {P : Platform} (ids : list value) : nat -> string -> Prop :=
| sql_empty : sql_text ids 0 ""
| sql_keyword k n s :
    In k keywords -> sql_text ids n s -> sql_text ids n (k ++ s)
| sql_identifier i n s :
    In i ids -> sql_text ids n s -> sql_text ids n (escapeId i ++ s)
| sql_placeholder n s :
    sql_text ids n s -> sql_text ids (S n) ("?" ++ s).

(** A handler outcome is parameterized over [ids] and [vals] when, if it is
    a statement, its text is an [sql_text] over [ids] with one placeholder
    per parameter and its parameters are exactly [vals]. *)
Definition parameterized {P : Platform} (ids vals : list value) (b : built) : Prop :=
  match b with
  | Statement sql params => sql_text ids (List.length params) sql /\ params = vals
  | _ => True
  end.

(** [l] for the array [VArr l], nothing for any other value. *)
Definition elements (v : value) : list value :=
  match v with VArr l => l | _ => [] end.

(** The field names of a property list. *)
Definition fields_of (v : value) : list value := map VStr (keys v).

(** The values of the properties other than [_id], in order. *)
Definition values_but_id (item : value) : list value :=
  map snd (filter (fun '(key, _) => negb (key =? "_id")) (entries item)).

Definition keys_but_id (item : value) : list string :=
  filter (fun key => negb (key =? "_id")) (keys item).

(** The [skip] and [limit] of a request when both are numbers. *)
Definition page_values (body : list (string * value)) : list value :=
  if (typeof (lookup "skip" body) =? "number") && (typeof (lookup "limit" body) =? "number")
  then [lookup "skip" body; lookup "limit" body] else [].

(** The values a structured clause carries. *)
Definition clause_values (filter : value) : list value :=
  if is_str "$hasSome" (prop "operator" filter) then elements (prop "value" filter)
  else if is_str "$eq" (prop "operator" filter) then [prop "value" filter]
  else [].

(** [[v]] when [v] is truthy. *)
Definition given (v : value) : list value := if truthy v then [v] else [].



(** *** Requests with a property left out *)

(** The same request with the properties [names] absent. *)
Definition without (names : list string) (body : list (string * value))
  : list (string * value) :=
  filter (fun '(key, _) => negb (existsb (String.eqb key) names)) body.

(** *** Substrings *)

(** [contains pat s]: [pat] occurs in [s]. *)
Definition contains (pat s : string) : Prop :=
  exists before after, s = before ++ pat ++ after.

(** *** The driver during one request *)

Definition is_end (c : nat) (e : event) : bool :=
  match e with End_ c' => (c' =? c)%nat | _ => false end.

Definition is_execute (e : event) : bool :=
  match e with Execute_ _ _ _ => true | _ => false end.

(** *** Sample requests *)

Module Sample.

(** [{collectionName: t, item: {name: a, age: 5}}] *)
Definition insert_request : list (string * value) :=
  [("collectionName", VStr "t");
   ("item", VObj [("name", VStr "a"); ("age", VNum 5)])].

(** [{collectionName: t, item: {_id: 7, name: b}}] *)
Definition update_request : list (string * value) :=
  [("collectionName", VStr "t");
   ("item", VObj [("_id", VNum 7); ("name", VStr "b")])].


(** [{collectionName: t, filter: f}] *)
Definition filter_request (f : value) : list (string * value) :=
  [("collectionName", VStr "t"); ("filter", f)].

Definition flat_filter : value := VObj [("name", VStr "a"); ("age", VNum 5)].

Definition clause (operator : string) (value : value) : Js.value :=
  VObj [("operator", VStr operator); ("fieldName", VStr "age"); ("value", value)].

(** A find with a clause, a sort and a page. *)
Definition find_request : list (string * value) :=
  [("collectionName", VStr "t");
   ("filter", clause "$hasSome" (VArr [VNum 1; VNum 2]));
   ("sort", VArr [VObj [("fieldName", VStr "name"); ("order", VStr "ASC")];
                  VObj [("fieldName", VStr "age"); ("order", VStr "asc")]]);
   ("skip", VNum 20);
   ("limit", VNum 10)].

(** The column of the [age] field as DESCRIBE reports it. *)
Definition age_column : value :=
  VObj [("Field", VStr "age"); ("Type", VStr "int(11)");
        ("Null", VStr "NO"); ("Key", VStr "")].

(** A database with the single table [users]: DESCRIBE of any other table
    is rejected, as MySQL does for a table that does not exist. *)
Definition users_only : connection :=
  {| cid := 1;
     execute := fun query _ =>
       if query =? "DESCRIBE `users`" then Return (VArr [age_column])
       else Throw (Rejected (VObj [("code", VStr "ER_NO_SUCH_TABLE")]));
     end_ := Return tt |}.

End Sample.

(** ** The rest of the servers *)

(** *** The access gate *)

Module Gate.

(** [v?.k] *)
Definition chain (k : string) (v : value) : value :=
  if nullish v then VUndefined else prop k v.

(** [v === process.env.NAME]: an environment variable is a string, or is
    not set. *)
Definition is_env (env : option string) (v : value) : bool :=
  match env, v with
  | Some s, VStr t => t =? s
  | None, VUndefined => true
  | _, _ => false
  end.

(** [validateSecretKey]: [true] when the middleware calls [next()],
    [false] when it answers 403. *)
Definition validateSecretKey (SECRET_KEY : option string) (body : value) : bool :=
  let providedKey :=
    chain "secretKey" (chain "settings" (chain "requestContext" body)) in
  if negb (truthy providedKey) || negb (is_env SECRET_KEY providedKey) then false
  else true.

(** The own properties a handler destructures from [req.body]. *)
Definition own (body : value) : list (string * value) :=
  match body with VObj o => o | _ => [] end.

Local Open Scope io_scope.

(** [app.post(path, validateSecretKey, handler)] *)
Definition guarded (SECRET_KEY : option string)
    (handler : list (string * value) -> io (Z * value)) (body : value)
  : io (Z * value) :=
  if validateSecretKey SECRET_KEY body then handler (own body)
  else
    emit (LogWarn "Tentativa de acesso não autorizado.") ;;;
    ret (403%Z, error_body "Acesso não autorizado").

End Gate.

(** *** The raw SQL validation *)

Module Raw.

Definition upper (c : ascii) : ascii :=
  let n := nat_of_ascii c in
  if (97 <=? n)%nat && (n <=? 122)%nat then ascii_of_nat (n - 32) else c.

(** [s.toUpperCase()] on ASCII text: the letters a to z are capitalized
    and every other byte is left as it is.  Text beyond ASCII is outside
    this function: JavaScript capitalizes its letters too, and the two
    ligatures U+FB05 and U+FB06 become the ASCII letters ST. *)
Fixpoint toUpperCase (s : string) : string :=
  match s with
  | EmptyString => EmptyString
  | String c s' => String (upper c) (toUpperCase s')
  end.

(** What [throw new Error(msg)] carries: an object with that [message]. *)
Definition Error (msg : string) : error := Rejected (VObj [("message", VStr msg)]).

Definition forbiddenKeywords : list string := ["DROP"; "DELETE"; "ALTER"; "TRUNCATE"].

(** The [for] loop of [validateQuery]: the first keyword found. *)
Fixpoint first_forbidden (keywords : list string) (upperCaseSql : string)
  : option string :=
  match keywords with
  | [] => None
  | keyword :: rest =>
      if includes keyword upperCaseSql then Some keyword
      else first_forbidden rest upperCaseSql
  end.

Definition validateQuery (sql : value) : completion unit :=
  if negb (truthy sql) || negb (typeof sql =? "string") then
    Throw (Error "Consulta SQL inválida")
  else
    let upperCaseSql := toUpperCase (toString sql) in
    match first_forbidden forbiddenKeywords upperCaseSql with
    | Some keyword =>
        Throw (Error ("Uso da palavra-chave '" ++ keyword ++ "' não permitido"))
    | None => Return tt
    end.

End Raw.

(** *** The handlers, from the request to the response *)

Module Routes.

(** [result[0]] *)
Definition first (result : value) : completion value :=
  match result with
  | VUndefined | VNull => Throw TypeError
  | VArr l => Return (nth 0 l VUndefined)
  | VStr s => Return (nth 0 (chars s) VUndefined)
  | VObj o => Return (lookup "0" o)
  | _ => Return VUndefined
  end.

(** [v.k], which throws on [null] and [undefined] *)
Definition member (k : string) (v : value) : completion value :=
  if nullish v then Throw TypeError else Return (prop k v).

(** [v === 0] *)
Definition is_zero (v : value) : bool :=
  match v with VNum n => (n =? 0)%Z | _ => false end.

(** [v.toString()] for a truthy [v]: an own [toString] property of an
    object is no function.  Numbers print as integers do below 10^21. *)
Definition call_toString (v : value) : completion value :=
  match v with
  | VUndefined | VNull => Throw TypeError
  | VObj o =>
      match lookup "toString" o with
      | VUndefined => Return (VStr (toString v))
      | _ => Throw TypeError
      end
  | _ => Return (VStr (toString v))
  end.

(** [for (const x of v)] for a truthy [v]: arrays and strings are
    iterable (a string by its code points), other values are not. *)
Definition iterate (v : value) : completion (list value) :=
  match v with
  | VArr l => Return l
  | VStr s => Return (map VStr (code_points s))
  | _ => Throw TypeError
  end.

(** [delete o.k] *)
Definition delete (k : string) (o : list (string * value)) : list (string * value) :=
  filter (fun '(key, _) => negb (key =? k)) o.

Section Handlers.
Context {P : Platform}.

(** [getConnection] of [./mysqlConnector]. *)
Variable getConnection : completion connection.

(** The text the runtime gives the [message] of its TypeErrors (one text
    stands for all of them). *)
Variable typeErrorText : string.

(** [process.env.DB_NAME] *)
Variable DB_NAME : option string.

(** Dates, which the driver returns for temporal columns: [isDate v] says
    that the object [v] is one ([v instanceof Date]), and [toISOString v]
    is what [v.toISOString()] completes with (a [RangeError] for an invalid
    date). *)
Variable isDate : value -> bool.
Variable toISOString : value -> completion value.

Local Open Scope io_scope.

(** [v instanceof Date]: only an object is one. *)
Definition instanceof_Date (v : value) : bool :=
  match v with VObj _ => isDate v | _ => false end.

(** [err.message] *)
Definition message (err : error) : completion value :=
  match err with
  | TypeError => Return (VStr typeErrorText)
  | Rejected reason => member "message" reason
  end.

(** [catch (err) { console.error(label, err.message); res.status(status).json(body) }],
    where [body] may hold [err.message]. *)
Definition caught (label : string) (status : Z) (body : value -> value) (err : error)
  : io (Z * value) :=
  msg <- (message err, []) ;;
  emit (LogError label) ;;;
  ret (status, body msg).

Definition internal_error (_ : value) : value := error_body "Erro interno do servidor".

Definition internal_error_details (msg : value) : value :=
  VObj [("error", VStr "Erro interno do servidor"); ("details", msg)].

(** What follows the statement building inside the [try] block: the early
    reply, the TypeError, or the query and then the rest of the block.
    [logged] tells whether the handler logs the statement first. *)
Definition run (logged : bool) (b : built) (rest : value -> io (Z * value))
  : io (Z * value) :=
  match b with
  | Reply status body => ret (status, body)
  | Thrown => throw TypeError
  | Statement sql params =>
      (if logged then emit (Log "SQL Query:") ;;; emit (Log "Params:") else ret tt) ;;;
      result <- executeQuery getConnection sql params ;;
      rest result
  end.

(** POST /api/query/provision *)
Definition provision (body : list (string * value)) : io (Z * value) :=
  try_catch
    (let installationId :=
       Gate.chain "installationId" (Gate.chain "requestContext" (VObj body)) in
     if negb (truthy installationId) then
       ret (400%Z, error_body "installationId não fornecido")
     else
       emit (Log ("Provisionamento realizado para installationId: "
                  ++ toString installationId)) ;;;
       ret (200%Z, VObj [("status", VStr "success");
                         ("instanceId", installationId);
                         ("message", VStr "Provisionamento concluído com sucesso")]))
    (caught "Erro no provisionamento:" 500 internal_error).

(** The [try] block shared by GET /api/query and POST /api/update. *)
Definition raw (body : list (string * value)) (reply : value -> value)
  : io (Z * value) :=
  let sql := lookup "sql" body in
  if negb (truthy sql) then ret (400%Z, error_body "Consulta SQL inválida")
  else
    (Raw.validateQuery sql, []) ;;;
    result <- executeQuery getConnection (toString sql) [] ;;
    ret (200%Z, reply result).

(** GET /api/query *)
Definition query (body : list (string * value)) : io (Z * value) :=
  try_catch
    (raw body (fun result => VObj [("rows", result)]))
    (caught "Erro ao executar consulta GET:" 400 (fun msg => VObj [("error", msg)])).

(** POST /api/update *)
Definition update (body : list (string * value)) : io (Z * value) :=
  try_catch
    (raw body (fun _ => VObj [("message", VStr "Operação realizada com sucesso")]))
    (caught "Erro ao executar consulta POST:" 400 (fun msg => VObj [("error", msg)])).

(** POST /api/items/find *)
Definition items_find (body : list (string * value)) : io (Z * value) :=
  try_catch
    (run false (Shared.items_find body)
       (fun result => ret (200%Z, VObj [("items", result)])))
    (caught "Erro ao encontrar itens:" 500 internal_error).

(** POST /api/query/data/count *)
Definition data_count (body : list (string * value)) : io (Z * value) :=
  try_catch
    (run false (Shared.data_count body)
       (fun result =>
          row <- (first result, []) ;;
          totalCount <- (member "totalCount" row, []) ;;
          ret (200%Z, VObj [("totalCount", totalCount)])))
    (caught "Erro ao contar itens:" 500 internal_error).

(** GET /api/items/:table/:id *)
Definition items_get (table id : string) : io (Z * value) :=
  try_catch
    (let escapedTable := escapeId (VStr table) in
     let sql := "SELECT * FROM " ++ escapedTable ++ " WHERE _id = ?" in
     result <- executeQuery getConnection sql [VStr id] ;;
     if negb (truthy result) || is_zero (prop "length" result) then
       ret (404%Z, error_body "Item não encontrado")
     else
       item <- (first result, []) ;;
       ret (200%Z, VObj [("item", item)]))
    (caught "Erro ao obter item:" 500 internal_error).

(** POST /api/query/data/insert *)
Definition data_insert (body : list (string * value)) : io (Z * value) :=
  try_catch
    (run false (Shared.data_insert body)
       (fun result =>
          insertId <- (member "insertId" result, []) ;;
          let insertedId := or_else insertId VNull in
          _id <- (if truthy insertedId then (call_toString insertedId, [])
                  else ret VNull) ;;
          ret (200%Z, VObj [("_id", _id);
                            ("message", VStr "Item inserido com sucesso.")])))
    (caught "Erro ao inserir item:" 500 internal_error).

(** The end of the [try] blocks of data/update and data/remove. *)
Definition affected (success : string) (result : value) : io (Z * value) :=
  affectedRows <- (member "affectedRows" result, []) ;;
  if is_zero affectedRows then ret (404%Z, error_body "Registro não encontrado")
  else ret (200%Z, VObj [("message", VStr success); ("affectedRows", affectedRows)]).

(** POST /api/query/data/update *)
Definition data_update (body : list (string * value)) : io (Z * value) :=
  try_catch
    (run true (Server.data_update body) (affected "Registro atualizado com sucesso"))
    (caught "Erro ao atualizar registro:" 500 internal_error_details).

(** POST /api/query/data/remove *)
Definition data_remove (body : list (string * value)) : io (Z * value) :=
  try_catch
    (run true (Server.data_remove body) (affected "Registro removido com sucesso"))
    (caught "Erro ao remover registro:" 500 internal_error_details).

(** [`Tables_in_${process.env.DB_NAME}`] *)
Definition tables_key : string :=
  "Tables_in_" ++ match DB_NAME with Some name => name | None => "undefined" end.

(** [tablesResult.map(row => row[key])] *)
Fixpoint table_names (rows : list value) : completion (list value) :=
  match rows with
  | [] => Return []
  | row :: rest =>
      match member tables_key row with
      | Throw err => Throw err
      | Return table =>
          match table_names rest with
          | Throw err => Throw err
          | Return tables => Return (table :: tables)
          end
      end
  end.

(** [for (const table of tables) { ... }] of schemas/list *)
Fixpoint list_each (tables : list value) (schemas : list value) : io (list value) :=
  match tables with
  | [] => ret schemas
  | table :: rest =>
      let escapedTable := escapeId table in
      let sqlColumns := "DESCRIBE " ++ escapedTable in
      columnsResult <- executeQuery getConnection sqlColumns [] ;;
      columns <- (iterate columnsResult, []) ;;
      fields <- (Schema.for_columns Schema.list_column columns [], []) ;;
      list_each rest (schemas ++ [Schema.schema table fields])%list
  end.

(** POST /api/query/schemas/list *)
Definition schemas_list (_ : list (string * value)) : io (Z * value) :=
  try_catch
    (tablesResult <- executeQuery getConnection "SHOW TABLES" [] ;;
     if negb (truthy tablesResult) || is_zero (prop "length" tablesResult) then
       ret (404%Z, error_body "Nenhuma tabela encontrada no banco de dados")
     else
       match tablesResult with
       | VArr rows =>
           tables <- (table_names rows, []) ;;
           schemas <- list_each tables [] ;;
           ret (200%Z, VObj [("schemas", VArr schemas)])
       | _ => throw TypeError
       end)
    (caught "Erro ao listar schemas:" 500 internal_error).

(** [items.map(format)] *)
Fixpoint format_each (format : nat -> value -> io value) (index : nat)
    (items : list value) : io (list value) :=
  match items with
  | [] => ret []
  | item :: rest =>
      formattedItem <- format index item ;;
      formattedItems <- format_each format (S index) rest ;;
      ret (formattedItem :: formattedItems)
  end.

(** [countResult[0].totalCount] of the count query of data/find *)
Definition total_count (escapedTable : string) : io value :=
  let countSql := "SELECT COUNT(*) AS totalCount FROM " ++ escapedTable in
  countResult <- executeQuery getConnection countSql [] ;;
  row <- (first countResult, []) ;;
  (member "totalCount" row, []).

(** The response object of data/find. *)
Definition find_response (returnTotalCount totalCount : value)
    (formattedItems : list value) : value :=
  if truthy returnTotalCount
  then VObj [("items", VArr formattedItems); ("totalCount", totalCount)]
  else VObj [("items", VArr formattedItems)].

(** The [map] callback of data/find in WIX - HOSTINGER - 1.0. *)
Definition hostinger_format (index : nat) (item : value) : io value :=
  let formattedItem := entries item in
  formattedItem <-
    (if truthy (lookup "date_added" formattedItem) then
       iso <- (if instanceof_Date (lookup "date_added" formattedItem)
               then toISOString (lookup "date_added" formattedItem)
               else Throw TypeError, []) ;;
       ret (Schema.set "date_added" (VObj [("$date", iso)]) formattedItem)
     else ret formattedItem) ;;
  emit (Log ("Formatted item " ++ string_of_nat (index + 1) ++ ":")) ;;;
  ret (VObj formattedItem).

(** POST /api/query/data/find of WIX - HOSTINGER - 1.0 *)
Definition hostinger_data_find (body : list (string * value)) : io (Z * value) :=
  try_catch
    (let returnTotalCount := lookup "returnTotalCount" body in
     let escapedTable := escapeId (lookup "collectionName" body) in
     run false (Hostinger.data_find body)
       (fun items =>
          emit (Log "Items from query:") ;;;
          match items with
          | VArr rows =>
              totalCount <- (if truthy returnTotalCount then total_count escapedTable
                             else ret VNull) ;;
              formattedItems <- format_each hostinger_format 0 rows ;;
              ret (200%Z, find_response returnTotalCount totalCount formattedItems)
          | _ =>
              emit (LogError "Erro: A consulta SQL não retornou um array") ;;;
              ret (500%Z, error_body "Erro ao buscar itens: resultado inválido")
          end))
    (caught "Erro ao buscar itens:" 500 internal_error).

(** The [map] callback of data/find in the other server. *)
Definition server_format (_ : nat) (item : value) : io value :=
  let formattedItem := entries item in
  if instanceof_Date (lookup "date_added" formattedItem) then
    iso <- (toISOString (lookup "date_added" formattedItem), []) ;;
    ret (VObj (Schema.set "date_added" (VObj [("$date", iso)]) formattedItem))
  else ret (VObj (delete "date_added" formattedItem)).

(** POST /api/query/data/find of the other server *)
Definition server_data_find (body : list (string * value)) : io (Z * value) :=
  try_catch
    (let returnTotalCount := lookup "returnTotalCount" body in
     let escapedTable := escapeId (lookup "collectionName" body) in
     run true (Server.data_find body)
       (fun items =>
          match items with
          | VArr (row :: rows) =>
              totalCount <- (if truthy returnTotalCount then total_count escapedTable
                             else ret VNull) ;;
              formattedItems <- format_each server_format 0 (row :: rows) ;;
              ret (200%Z, find_response returnTotalCount totalCount formattedItems)
          | _ => ret (200%Z, VObj [("items", VArr [])])
          end))
    (caught "Erro ao buscar itens:" 500 internal_error_details).

End Handlers.
End Routes.

(** *** What a request asks of the database *)

(** The statements a trace hands to [execute], in order. *)
Fixpoint executed (trace : list event) : list (string * list value) :=
  match trace with
  | [] => []
  | Execute_ _ query binds :: rest => (query, binds) :: executed rest
  | _ :: rest => executed rest
  end.

(** The name a column is published under by schemas/find and by
    schemas/list. *)
Definition find_name (column : value) : string :=
  toString (or_else (prop "Field" column) (VStr "")).

Definition list_name (column : value) : string :=
  if is_str "PRI" (prop "Key" column) then "_id" else find_name column.

(** The errors of a driver are proper when a promise it rejects is never
    rejected with [null] or [undefined]. *)
Definition proper (err : error) : Prop :=
  match err with
  | TypeError => True
  | Rejected reason => nullish reason = false
  end.

Definition proper_driver (getConnection : completion connection) : Prop :=
  match getConnection with
  | Throw err => proper err
  | Return connection =>
      forall query binds err, execute connection query binds = Throw err -> proper err
  end.

(** A computation throws properly when what it throws, if anything, is
    proper. *)
Definition throws_properly {A : Type} (m : io A) : Prop :=
  match fst m with
  | Throw err => proper err
  | Return _ => True
  end.

(** *** Sample databases *)

Module Fixture.

(** A connection on which every statement is rejected with [reason]. *)
Definition failing (reason : value) : connection :=
  {| cid := 2; execute := fun _ _ => Throw (Rejected reason); end_ := Return tt |}.

(** A connection on which every statement resolves to [result]. *)
Definition answering (result : value) : connection :=
  {| cid := 3; execute := fun _ _ => Return result; end_ := Return tt |}.

(** The error object of a missing table. *)
Definition no_such_table : value :=
  VObj [("code", VStr "ER_NO_SUCH_TABLE");
        ("message", VStr "Table 'db.x' doesn't exist")].

(** The columns of a table with a two-column primary key. *)
Definition order_lines : list value :=
  [VObj [("Field", VStr "order_id"); ("Type", VStr "int(11)");
         ("Null", VStr "NO"); ("Key", VStr "PRI")];
   VObj [("Field", VStr "line_no"); ("Type", VStr "smallint(6)");
         ("Null", VStr "NO"); ("Key", VStr "PRI")];
   VObj [("Field", VStr "note"); ("Type", VStr "varchar(80)");
         ("Null", VStr "YES"); ("Key", VStr "")]].

(** A database [shop] with the tables [users] and [order_lines]. *)
Definition shop : connection :=
  {| cid := 4;
     execute := fun query _ =>
       if query =? "SHOW TABLES" then
         Return (VArr [VObj [("Tables_in_shop", VStr "users")];
                       VObj [("Tables_in_shop", VStr "order_lines")]])
       else if query =? "DESCRIBE `users`" then Return (VArr [Sample.age_column])
       else if query =? "DESCRIBE `order_lines`" then Return (VArr order_lines)
       else Throw (Rejected no_such_table);
     end_ := Return tt |}.

End Fixture.

(** ** Properties *)

(** *** Strings and joins *)

Lemma append_nil_r (s : string) : s ++ "" = s.
Proof. induction s as [|c s IH]; simpl; [reflexivity | now rewrite IH]. Qed.

Lemma append_assoc (a b c : string) : (a ++ b) ++ c = a ++ b ++ c.
Proof. induction a as [|x a IH]; simpl; [reflexivity | now rewrite IH]. Qed.

Lemma length_append (a b : string) :
  String.length (a ++ b) = (String.length a + String.length b)%nat.
Proof. induction a as [|x a IH]; simpl; [reflexivity | now rewrite IH]. Qed.

Lemma append_inv_head (a b c : string) : a ++ b = a ++ c -> b = c.
Proof.
  induction a as [|x a IH]; simpl; intros H; [assumption|].
  injection H as H. now apply IH.
Qed.

Lemma join_cons (sep x : string) (l : list string) :
  l <> [] -> join sep (x :: l) = x ++ sep ++ join sep l.
Proof. destruct l; [congruence | reflexivity]. Qed.

Lemma prefix_spec (p s : string) :
  String.prefix p s = true <-> exists rest, s = p ++ rest.
Proof.
  revert s; induction p as [|c p IH]; intros s.
  - destruct s; simpl; split; eauto.
  - destruct s as [|d s]; simpl.
    + split; [discriminate | intros [rest H]; discriminate].
    + destruct (ascii_dec c d) as [->|Hcd].
      * rewrite IH. split; intros [rest H]; exists rest.
        -- now rewrite H.
        -- now injection H.
      * split; [discriminate | intros [rest H]; injection H; congruence].
Qed.

Lemma includes_spec (pat s : string) : includes pat s = true <-> contains pat s.
Proof.
  induction s as [|c s IH].
  - cbn [includes]. rewrite orb_false_r, prefix_spec. split.
    + intros [rest H]. exists "", rest. exact H.
    + intros [[|x before] [after H]].
      * now exists after.
      * discriminate.
  - cbn [includes]. rewrite orb_true_iff, prefix_spec, IH. split.
    + intros [[rest H] | [before [after H]]].
      * exists "", rest. exact H.
      * exists (String c before), after. simpl. now rewrite H.
    + intros [[|x before] [after H]].
      * left. now exists after.
      * right. exists before, after. simpl in H. now injection H.
Qed.

Lemma includes_false (pat s : string) : includes pat s = false <-> ~ contains pat s.
Proof.
  rewrite <- includes_spec. destruct (includes pat s); split; congruence.
Qed.

(** *** The schema mapper *)

Example classify_standard_types :
  map Schema.mapMySQLTypeToWixType
      ["int(11)"; "BIGINT unsigned"; "varchar(255)"; "longtext"; "char(3)";
       "date"; "DATETIME"; "timestamp"; "float"; "double"; "decimal(10,2)";
       "bool"; "blob"; "json"]
  = ["number"; "number"; "text"; "text"; "text";
     "datetime"; "datetime"; "datetime"; "number"; "number"; "number";
     "boolean"; "any"; "any"].
Proof. reflexivity. Qed.

Lemma includes_datetime (t : string) :
  includes "datetime" t = true -> includes "date" t = true.
Proof.
  rewrite !includes_spec. intros [before [after H]].
  exists before, ("time" ++ after). exact H.
Qed.

(** C6.  The classification looks at the lowercased native type and goes
    through the substrings in the order of the list: a type containing
    [int] is a number; otherwise one containing [varchar], [text] or [char]
    is a text; otherwise one containing [date] or [time] is a datetime;
    otherwise one containing [float], [double] or [decimal] is a number;
    otherwise one containing [bool] is a boolean; anything else is [any].
    The column [{Field: age, Type: int(11), Null: NO, Key: (empty)}] of
    schemas/list gets type number, required true and unique false. *)
Theorem type_classification (mysqlType : string) :
  let t := toLowerCase mysqlType in
  let text := contains "varchar" t \/ contains "text" t \/ contains "char" t in
  let datetime := contains "date" t \/ contains "time" t in
  let float := contains "float" t \/ contains "double" t \/ contains "decimal" t in
  (contains "int" t -> Schema.mapMySQLTypeToWixType mysqlType = "number")
  /\ (~ contains "int" t -> text ->
      Schema.mapMySQLTypeToWixType mysqlType = "text")
  /\ (~ contains "int" t -> ~ text -> datetime ->
      Schema.mapMySQLTypeToWixType mysqlType = "datetime")
  /\ (~ contains "int" t -> ~ text -> ~ datetime -> float ->
      Schema.mapMySQLTypeToWixType mysqlType = "number")
  /\ (~ contains "int" t -> ~ text -> ~ datetime -> ~ float -> contains "bool" t ->
      Schema.mapMySQLTypeToWixType mysqlType = "boolean")
  /\ (~ contains "int" t -> ~ text -> ~ datetime -> ~ float -> ~ contains "bool" t ->
      Schema.mapMySQLTypeToWixType mysqlType = "any")
  /\ exists schema,
       Schema.list_column [] Sample.age_column = Return [("age", schema)]
       /\ prop "type" schema = VStr "number"
       /\ prop "required" schema = VBool true
       /\ prop "unique" schema = VBool false.
Proof.
  intros t text datetime float. subst text datetime float.
  unfold Schema.mapMySQLTypeToWixType. fold t.
  repeat rewrite <- includes_spec.
  pose proof (includes_datetime t) as Hdt.
  destruct (includes "int" t), (includes "varchar" t), (includes "text" t),
    (includes "char" t), (includes "date" t), (includes "time" t),
    (includes "datetime" t), (includes "float" t), (includes "double" t),
    (includes "decimal" t), (includes "bool" t); cbn [orb];
    (repeat split; try solve [reflexivity | intuition congruence]);
    (eexists; repeat split; reflexivity).
Qed.

(** Discharges [~ contains pat s] and [contains pat s] on closed strings. *)
Ltac substring :=
  first [ apply includes_spec; reflexivity
        | apply includes_false; reflexivity
        | intros [H | [H | H]]; apply includes_spec in H; discriminate H
        | intros [H | H]; apply includes_spec in H; discriminate H
        | left; substring | right; left; substring | right; right; substring
        | right; substring ].

Lemma type_classification_witness :
  (contains "int" (toLowerCase "TINYINT(1)")
   /\ Schema.mapMySQLTypeToWixType "TINYINT(1)" = "number")
  /\ (~ contains "int" (toLowerCase "varchar(255)")
      /\ contains "varchar" (toLowerCase "varchar(255)")
      /\ Schema.mapMySQLTypeToWixType "varchar(255)" = "text")
  /\ (contains "time" (toLowerCase "timestamp")
      /\ Schema.mapMySQLTypeToWixType "timestamp" = "datetime")
  /\ (contains "decimal" (toLowerCase "decimal(10,2)")
      /\ Schema.mapMySQLTypeToWixType "decimal(10,2)" = "number")
  /\ (contains "bool" (toLowerCase "BOOL")
      /\ Schema.mapMySQLTypeToWixType "BOOL" = "boolean")
  /\ (~ contains "bool" (toLowerCase "blob")
      /\ Schema.mapMySQLTypeToWixType "blob" = "any").
Proof.
  split; [|split; [|split; [|split; [|split]]]].
  - split; [substring|].
    apply (proj1 (type_classification "TINYINT(1)")); substring.
  - split; [substring|]. split; [substring|].
    apply (proj1 (proj2 (type_classification "varchar(255)"))); substring.
  - split; [substring|].
    apply (proj1 (proj2 (proj2 (type_classification "timestamp")))); substring.
  - split; [substring|].
    apply (proj1 (proj2 (proj2 (proj2 (type_classification "decimal(10,2)")))));
      substring.
  - split; [substring|].
    apply (proj1 (proj2 (proj2 (proj2 (proj2 (type_classification "BOOL"))))));
      substring.
  - split; [substring|].
    apply (proj1 (proj2 (proj2 (proj2 (proj2 (proj2 (type_classification "blob")))))));
      substring.
Defined.

(** *** The query executor *)

Example executeQuery_statement_error :
  executeQuery
    (Return {| cid := 3;
               execute := fun _ _ => Throw (Rejected (VStr "ER_PARSE_ERROR"));
               end_ := Throw (Rejected (VStr "ECONNRESET")) |})
    "SELECT 1" []
  = (Throw (Rejected (VStr "ER_PARSE_ERROR")),
     [Log "Conexão estabelecida com o banco de dados.";
      Log "Executando consulta:"; Log "Parâmetros:";
      Execute_ 3 "SELECT 1" [];
      LogError "Erro ao executar consulta:";
      End_ 3; LogError "Erro ao fechar conexão:"]).
Proof. reflexivity. Qed.

(** C9.  Whatever the statement and the release do, [executeQuery] calls
    [end] on the connection it acquired exactly once, after the statement;
    its own outcome is the outcome of the statement alone (the rows, or
    the empty array for falsy rows, on success; the statement's error
    unchanged on failure); a failing release only leaves an error line in
    the log.  When no connection could be acquired there is none to
    release and the acquisition error is what the caller gets. *)
Theorem executeQuery_release
    (getConnection : completion connection) (query : string) (binds : list value) :
  let outcome := fst (executeQuery getConnection query binds) in
  let trace := snd (executeQuery getConnection query binds) in
  match getConnection with
  | Return connection =>
      outcome =
        match execute connection query binds with
        | Return rows => Return (or_else rows (VArr []))
        | Throw err => Throw err
        end
      /\ List.length (filter (is_end (cid connection)) trace) = 1%nat
      /\ (exists before after,
             trace = (before ++ Execute_ (cid connection) query binds :: after)%list
             /\ filter is_execute before = []
             /\ In (End_ (cid connection)) after
             /\ filter is_execute after = [])
      /\ match end_ connection with
         | Return _ => In (Log "Conexão fechada.") trace
         | Throw _ => In (LogError "Erro ao fechar conexão:") trace
         end
  | Throw err =>
      outcome = Throw err
      /\ filter is_execute trace = []
      /\ (forall c, filter (is_end c) trace = [])
  end.
Proof.
  destruct getConnection as [connection | err]; cbn.
  - unfold executeQuery, release.
    destruct (execute connection query binds) as [rows | err];
      destruct (end_ connection) as [[] | err']; cbn;
      rewrite Nat.eqb_refl; cbn;
      (split; [reflexivity|]); (split; [reflexivity|]);
      (split;
       [ eexists [_; _; _], _; cbn; (split; [reflexivity|]);
         (split; [reflexivity|]); (split; [cbn; auto 10 | reflexivity])
       | auto 10 ]).
  - repeat split.
Qed.

(** *** Statement texts *)

Section SqlText.
Context {P : Platform}.
Variable ids : list value.

Lemma sql_text_app n m s t :
  sql_text ids n s -> sql_text ids m t -> sql_text ids (n + m) (s ++ t).
Proof.
  induction 1 as [|k n s Hk _ IH|i n s Hi _ IH|n s _ IH]; intros Ht; cbn [Nat.add].
  - exact Ht.
  - rewrite append_assoc. apply sql_keyword; [exact Hk | exact (IH Ht)].
  - rewrite append_assoc. apply sql_identifier; [exact Hi | exact (IH Ht)].
  - rewrite append_assoc. apply sql_placeholder. exact (IH Ht).
Qed.

Lemma sql_text_count n m s : sql_text ids n s -> n = m -> sql_text ids m s.
Proof. now intros H <-. Qed.

Lemma sql_kw k : In k keywords -> sql_text ids 0 k.
Proof.
  intros Hk. rewrite <- (append_nil_r k). apply sql_keyword; [exact Hk | constructor].
Qed.

Lemma sql_id i : In i ids -> sql_text ids 0 (escapeId i).
Proof.
  intros Hi. rewrite <- (append_nil_r (escapeId i)).
  apply sql_identifier; [exact Hi | constructor].
Qed.

Lemma sql_hole : sql_text ids 1 "?".
Proof. exact (sql_placeholder ids 0 "" (sql_empty ids)). Qed.

Lemma sql_equals_hole : sql_text ids 1 " = ?".
Proof.
  apply (sql_keyword ids " = " 1 "?"); [|exact sql_hole].
  cbn; solve [repeat (first [left; reflexivity | right])].
Qed.

Lemma sql_join sep c l :
  sql_text ids 0 sep -> (forall x, In x l -> sql_text ids c x) ->
  sql_text ids (c * List.length l) (join sep l).
Proof.
  intros Hsep. induction l as [|x l IH]; intros Hl.
  - rewrite Nat.mul_0_r. constructor.
  - destruct l as [|y l].
    + cbn [join String.concat List.length]. rewrite Nat.mul_1_r.
      apply Hl. now left.
    + rewrite join_cons by discriminate.
      replace (c * List.length (x :: y :: l))%nat
        with (c + (0 + c * List.length (y :: l)))%nat by (cbn [List.length]; lia).
      apply sql_text_app; [apply Hl; now left|].
      apply sql_text_app; [exact Hsep|].
      apply IH. intros z Hz. apply Hl. now right.
Qed.

End SqlText.

Lemma sql_text_incl {P : Platform} (ids ids' : list value) n s :
  incl ids ids' -> sql_text ids n s -> sql_text ids' n s.
Proof.
  intros Hincl. induction 1; [constructor | apply sql_keyword | apply sql_identifier
                             | apply sql_placeholder]; auto.
Qed.

(** Membership in an explicit list. *)
Ltac in_list := cbn; solve [repeat (first [left; reflexivity | right])].

(** A keyword, an escaped identifier or a placeholder. *)
Ltac sql_piece :=
  first [ apply sql_hole
        | apply sql_kw; in_list
        | apply sql_id; solve [in_list | auto with datatypes] ].

Section Blocks.
Context {P : Platform}.

Lemma sql_conditions (ids : list value) (filter : value) :
  incl (fields_of filter) ids ->
  sql_text ids (List.length (values filter)) (Shared.conditions filter).
Proof.
  intros Hincl. unfold Shared.conditions, values.
  rewrite length_map, <- (length_map (fun '(key, _) => escapeId (VStr key) ++ " = ?")).
  rewrite <- (Nat.mul_1_l (List.length _)).
  apply sql_join; [sql_piece|].
  intros x Hx. apply in_map_iff in Hx. destruct Hx as [[key v] [<- Hin]].
  apply (sql_text_app ids 0 1); [|apply sql_equals_hole].
  apply sql_id. apply Hincl. unfold fields_of, keys.
  apply in_map. apply (in_map fst) in Hin. exact Hin.
Qed.

Lemma values_empty (filter : value) :
  truthy filter && (0 <? List.length (keys filter))%nat = false -> values filter = [].
Proof.
  unfold values, keys. rewrite length_map.
  destruct (entries filter) as [|e l] eqn:E; [reflexivity|].
  cbn [List.length Nat.ltb Nat.leb]. rewrite andb_true_r.
  destruct filter as [| |b|n|s|l'|o]; cbn in *; try discriminate.
  destruct s; cbn in *; discriminate.
Qed.

Lemma values_falsy (filter : value) : truthy filter = false -> values filter = [].
Proof.
  destruct filter as [| |[]|n|s|l'|o]; cbn; try discriminate; try reflexivity.
  destruct s; [reflexivity | discriminate].
Qed.

Lemma sql_order_by (ids : list value) (sort : value) (sql sql' : string) n :
  incl (map (prop "fieldName") (elements sort)) ids ->
  Shared.order_by sort sql = Some sql' ->
  sql_text ids n sql -> sql_text ids n sql'.
Proof.
  intros Hincl. unfold Shared.order_by.
  destruct (truthy sort && Shared.length_positive sort).
  - destruct sort as [| | | | |entries|]; try discriminate.
    destruct (existsb nullish entries); [discriminate|].
    intros [= <-] Hsql.
    rewrite <- (Nat.add_0_r n). apply sql_text_app; [exact Hsql|].
    apply (sql_keyword ids " ORDER BY "); [in_list|].
    rewrite <- (Nat.mul_0_l (List.length (map Shared.sort_token entries))).
    apply sql_join; [sql_piece|].
    intros x Hx. apply in_map_iff in Hx. destruct Hx as [entry [<- Hin]].
    unfold Shared.sort_token.
    apply (sql_text_app ids 0 0).
    + apply sql_id. apply Hincl. cbn [elements]. now apply in_map.
    + destruct (is_str "ASC" (prop "order" entry)); sql_piece.
  - now intros [= <-].
Qed.

Lemma sql_paginate (ids : list value) (body : list (string * value))
    (sql sql' : string) (params params' : list value) :
  Shared.paginate (lookup "skip" body) (lookup "limit" body) sql params = (sql', params') ->
  sql_text ids (List.length params) sql ->
  sql_text ids (List.length params') sql' /\ params' = (params ++ page_values body)%list.
Proof.
  unfold Shared.paginate, page_values.
  destruct ((typeof (lookup "skip" body) =? "number")
            && (typeof (lookup "limit" body) =? "number"));
    intros [= <- <-] Hsql.
  - split; [|reflexivity]. rewrite length_app. apply sql_text_app; [exact Hsql|].
    apply (sql_keyword ids " LIMIT "); [in_list|].
    apply (sql_placeholder ids 1).
    apply (sql_keyword ids ", "); [in_list|].
    apply sql_hole.
  - rewrite app_nil_r. now split.
Qed.

End Blocks.

(** *** The loops of insert and update *)

Section Loops.
Context {P : Platform}.

Lemma insert_loop (l : list (string * value)) (fs ps : list string) (vs : list value) :
  fold_left
    (fun '(fields, placeholders, values) '(key, value) =>
       ((fields ++ [escapeId (VStr key)])%list,
        (placeholders ++ ["?"])%list,
        (values ++ [value])%list))
    l (fs, ps, vs)
  = ((fs ++ map (fun key => escapeId (VStr key)) (map fst l))%list,
     (ps ++ map (fun _ => "?") (map fst l))%list,
     (vs ++ map snd l)%list).
Proof.
  revert fs ps vs. induction l as [|[key v] l IH]; intros fs ps vs; cbn [fold_left map].
  - now rewrite !app_nil_r.
  - rewrite IH, <- !app_assoc. reflexivity.
Qed.

Lemma indexOf_absent (k : string) (l : list string) :
  ~ In k l -> indexOf k l = (-1)%Z.
Proof.
  induction l as [|x l IH]; intros Hin; cbn [indexOf]; [reflexivity|].
  destruct (String.eqb_spec x k) as [->|_].
  - exfalso. apply Hin. now left.
  - rewrite IH by (intros H; apply Hin; now right). reflexivity.
Qed.

Lemma indexOf_range (k : string) (l : list string) : (-1 <= indexOf k l)%Z.
Proof.
  induction l as [|x l IH]; cbn [indexOf]; [lia|].
  destruct (x =? k); [lia|].
  destruct (indexOf k l <? 0)%Z; lia.
Qed.

Lemma filter_index_all {A : Type} (p : Z -> bool) (i : Z) (l : list A) :
  (forall j, (i <= j)%Z -> p j = true) -> filter_index p i l = l.
Proof.
  revert i. induction l as [|x l IH]; intros i Hp; cbn [filter_index]; [reflexivity|].
  rewrite Hp by lia. f_equal. apply IH. intros j Hj. apply Hp. lia.
Qed.

Lemma filter_absent (l : list (string * value)) :
  ~ In "_id" (map fst l) ->
  filter (fun '(key, _) => negb (key =? "_id")) l = l.
Proof.
  induction l as [|[key v] l IH]; intros Hin; cbn [filter]; [reflexivity|].
  destruct (String.eqb_spec key "_id") as [->|_].
  - exfalso. apply Hin. now left.
  - cbn [negb]. f_equal. apply IH. intros H. apply Hin. now right.
Qed.

(** Dropping the value at [indexOf('_id')] drops the value of [_id]. *)
Lemma filter_index_id (l : list (string * value)) (i0 : Z) :
  NoDup (map fst l) ->
  filter_index (fun index => negb (index =? i0 + indexOf "_id" (map fst l))%Z) i0
    (map snd l)
  = map snd (filter (fun '(key, _) => negb (key =? "_id")) l).
Proof.
  revert i0. induction l as [|[key v] l IH]; intros i0 Hnd; [reflexivity|].
  cbn [map fst snd] in *. apply NoDup_cons_iff in Hnd. destruct Hnd as [Hnotin Hnd].
  cbn [indexOf filter_index filter].
  destruct (String.eqb_spec key "_id") as [->|Hneq]; cbn [negb].
  - rewrite Z.add_0_r, Z.eqb_refl. cbn [negb].
    rewrite filter_absent by exact Hnotin.
    apply filter_index_all. intros j Hj.
    apply negb_true_iff, Z.eqb_neq. lia.
  - pose proof (indexOf_range "_id" (map fst l)) as Hr.
    destruct (indexOf "_id" (map fst l) <? 0)%Z eqn:Hlt.
    + apply Z.ltb_lt in Hlt.
      replace (i0 =? i0 + -1)%Z with false by (symmetry; apply Z.eqb_neq; lia).
      cbn [negb map snd]. f_equal.
      rewrite <- (IH (i0 + 1)%Z Hnd).
      rewrite !filter_index_all; [reflexivity| |];
        intros j Hj; apply negb_true_iff, Z.eqb_neq; lia.
    + apply Z.ltb_ge in Hlt.
      replace (i0 =? i0 + (indexOf "_id" (map fst l) + 1))%Z with false
        by (symmetry; apply Z.eqb_neq; lia).
      cbn [negb map snd]. f_equal.
      rewrite <- (IH (i0 + 1)%Z Hnd).
      replace (i0 + 1 + indexOf "_id" (map fst l))%Z
        with (i0 + (indexOf "_id" (map fst l) + 1))%Z by lia.
      reflexivity.
Qed.

Lemma update_values (item : value) :
  NoDup (keys item) ->
  filter_index (fun index => negb (index =? indexOf "_id" (keys item))%Z) 0 (values item)
  = values_but_id item.
Proof.
  intros Hnd. unfold values_but_id, values, keys in *.
  rewrite <- (filter_index_id (entries item) 0 Hnd). reflexivity.
Qed.

Lemma keys_but_id_length (item : value) :
  List.length (keys_but_id item) = List.length (values_but_id item).
Proof.
  unfold keys_but_id, values_but_id, keys. rewrite length_map.
  induction (entries item) as [|[key v] l IH]; [reflexivity|].
  cbn [map fst filter]. destruct (negb (key =? "_id")); cbn [List.length]; lia.
Qed.

End Loops.

(** *** Every handler hands over a parameterized statement *)

(** Splits a statement text into its pieces. *)
Ltac sql_build :=
  repeat match goal with
  | |- sql_text _ _ (Shared.conditions _) =>
      apply sql_conditions; auto with datatypes
  | |- sql_text _ _ " = ?" => apply sql_equals_hole
  | |- sql_text _ _ " LIMIT ?" =>
      apply (sql_keyword _ " LIMIT " 1 "?"); [in_list | apply sql_hole]
  | |- sql_text _ _ " OFFSET ?" =>
      apply (sql_keyword _ " OFFSET " 1 "?"); [in_list | apply sql_hole]
  | |- sql_text _ _ " WHERE _id = ?" =>
      apply (sql_keyword _ " WHERE _id = " 1 "?"); [in_list | apply sql_hole]
  | |- sql_text _ _ (escapeId _) =>
      apply sql_id; solve [in_list | auto with datatypes]
  | |- sql_text _ _ (_ ++ _) => eapply sql_text_app
  | |- sql_text _ _ _ => apply sql_kw; in_list
  end.

Ltac sql_count := rewrite ?length_app, ?length_map; cbn [List.length]; lia.

Lemma Statement_eq (sql sql' : string) (params params' : list value) :
  Statement sql params = Statement sql' params' -> sql = sql' /\ params = params'.
Proof. intros H. injection H. auto. Qed.

Section Parameterized.
Context {P : Platform}.

Lemma items_find_parameterized (body : list (string * value)) :
  parameterized
    (lookup "table" body :: fields_of (lookup "filter" body))
    (values (lookup "filter" body) ++ given (lookup "limit" body)
       ++ given (lookup "offset" body))%list
    (Shared.items_find body).
Proof.
  unfold Shared.items_find, given.
  destruct (truthy (lookup "filter" body)) eqn:Hf;
    destruct (truthy (lookup "limit" body));
    destruct (truthy (lookup "offset" body));
    cbv beta iota zeta; unfold parameterized;
    (split;
     [ eapply sql_text_count; [sql_build | sql_count]
     | cbn [app]; rewrite ?(values_falsy _ Hf), <- ?app_assoc, ?app_nil_r; reflexivity ]).
Qed.

Lemma data_count_parameterized (body : list (string * value)) :
  parameterized
    (lookup "collectionName" body :: fields_of (lookup "filter" body))
    (values (lookup "filter" body))
    (Shared.data_count body).
Proof.
  unfold Shared.data_count.
  destruct (truthy (lookup "collectionName" body)); cbn [negb]; [|exact I].
  destruct (truthy (lookup "filter" body)
            && (0 <? List.length (keys (lookup "filter" body)))%nat) eqn:Hf;
    cbv beta iota zeta; unfold parameterized;
    (split;
     [ eapply sql_text_count; [sql_build | sql_count]
     | cbn [app]; rewrite ?(values_empty _ Hf); reflexivity ]).
Qed.

Lemma data_insert_parameterized (body : list (string * value)) :
  let payload := or_else (lookup "item" body) (lookup "data" body) in
  parameterized
    (lookup "collectionName" body :: fields_of payload)
    (values payload)
    (Shared.data_insert body).
Proof.
  intros payload. unfold Shared.data_insert. fold payload.
  destruct (negb (truthy (lookup "collectionName" body))
            || negb (typeof (lookup "collectionName" body) =? "string")); [exact I|].
  destruct (negb (truthy payload) || negb (typeof payload =? "object")
            || (List.length (keys payload) =? 0)%nat); [exact I|].
  rewrite insert_loop. cbv beta iota zeta. unfold parameterized. cbn [app].
  split; [|reflexivity].
  eapply sql_text_count.
  - eapply sql_text_app; [sql_build|].
    eapply sql_text_app; [sql_build|].
    eapply sql_text_app; [sql_build|].
    eapply sql_text_app.
    + apply (sql_join _ ", " 0); [sql_build|].
      intros x Hx. apply in_map_iff in Hx. destruct Hx as [key [<- Hin]].
      apply sql_id. right. now apply in_map.
    + eapply sql_text_app; [sql_build|].
      eapply sql_text_app; [|sql_build].
      apply (sql_join _ ", " 1); [sql_build|].
      intros x Hx. apply in_map_iff in Hx. destruct Hx as [key [<- Hin]].
      apply sql_hole.
  - unfold values, keys. sql_count.
Qed.

Lemma clause_values_empty (filter : value) :
  truthy filter && (0 <? List.length (keys filter))%nat = false ->
  clause_values filter = [].
Proof.
  destruct filter as [| |b|n|s|l|o]; try reflexivity.
  destruct o as [|e o]; [reflexivity | discriminate].
Qed.

Lemma where_clause_parameterized (ids : list value) (filter : value)
    (sql sql' : string) (params params' : list value) :
  In (prop "fieldName" filter) ids ->
  Server.where_clause filter sql params = Statement sql' params' ->
  sql_text ids (List.length params) sql ->
  sql_text ids (List.length params') sql'
  /\ params' = (params ++ clause_values filter)%list.
Proof.
  intros Hid. unfold Server.where_clause.
  destruct (truthy filter && (0 <? List.length (keys filter))%nat) eqn:Hf.
  - unfold clause_values.
    destruct (is_str "$hasSome" (prop "operator" filter));
      [|destruct (is_str "$eq" (prop "operator" filter))];
      cbn [orb negb]; try discriminate.
    + destruct (prop "value" filter) as [| | | | |elems|]; try discriminate.
      intros H Hsql; apply Statement_eq in H; destruct H as [<- <-]. split; [|reflexivity].
      eapply sql_text_count.
      * eapply sql_text_app; [exact Hsql|].
        eapply sql_text_app; [sql_build|].
        eapply sql_text_app; [sql_build|].
        eapply sql_text_app; [sql_build|].
        eapply sql_text_app; [|sql_build].
        apply (sql_join _ "," 1); [sql_build|].
        intros x Hx. apply in_map_iff in Hx. destruct Hx as [e [<- _]].
        apply sql_hole.
      * cbn [elements]. sql_count.
    + intros H Hsql; apply Statement_eq in H; destruct H as [<- <-]. split; [|reflexivity].
      eapply sql_text_count; [eapply sql_text_app; [exact Hsql | sql_build] | sql_count].
  - intros H Hsql; apply Statement_eq in H; destruct H as [<- <-].
    rewrite (clause_values_empty _ Hf), app_nil_r. now split.
Qed.

Lemma sort_page_parameterized (ids : list value) (body : list (string * value))
    (sql0 : string) (params0 : list value) :
  incl (map (prop "fieldName") (elements (lookup "sort" body))) ids ->
  sql_text ids (List.length params0) sql0 ->
  parameterized ids (params0 ++ page_values body)%list
    match Shared.order_by (lookup "sort" body) sql0 with
    | Some sql =>
        let '(sql, params) :=
          Shared.paginate (lookup "skip" body) (lookup "limit" body) sql params0 in
        Statement sql params
    | None => Thrown
    end.
Proof.
  intros Hincl H0.
  destruct (Shared.order_by (lookup "sort" body) sql0) as [sql1|] eqn:Ho; [|exact I].
  destruct (Shared.paginate _ _ sql1 params0) as [sql2 params2] eqn:Hp.
  apply (sql_paginate ids) in Hp; [exact Hp|].
  exact (sql_order_by ids _ _ _ _ Hincl Ho H0).
Qed.

Lemma hostinger_data_find_parameterized (body : list (string * value)) :
  parameterized
    (lookup "collectionName" body
       :: fields_of (lookup "filter" body)
       ++ map (prop "fieldName") (elements (lookup "sort" body)))%list
    (values (lookup "filter" body) ++ page_values body)%list
    (Hostinger.data_find body).
Proof.
  unfold Hostinger.data_find.
  destruct (truthy (lookup "collectionName" body)); cbn [negb]; [|exact I].
  destruct (truthy (lookup "filter" body)
            && (0 <? List.length (keys (lookup "filter" body)))%nat) eqn:Hf;
    cbv beta iota zeta.
  - apply sort_page_parameterized; [auto with datatypes|]. cbn [app].
    eapply sql_text_count; [sql_build | sql_count].
  - rewrite (values_empty _ Hf).
    apply (sort_page_parameterized _ _ _ []); [auto with datatypes|].
    eapply sql_text_count; [sql_build | sql_count].
Qed.

Lemma server_data_find_parameterized (body : list (string * value)) :
  parameterized
    (lookup "collectionName" body
       :: prop "fieldName" (lookup "filter" body)
       :: map (prop "fieldName") (elements (lookup "sort" body)))
    (clause_values (lookup "filter" body) ++ page_values body)%list
    (Server.data_find body).
Proof.
  unfold Server.data_find.
  destruct (truthy (lookup "collectionName" body)); cbn [negb]; [|exact I].
  cbv beta iota zeta.
  set (ids := lookup "collectionName" body :: _).
  destruct (Server.where_clause (lookup "filter" body) _ [])
    as [status reply | sql1 params1 |] eqn:Hw; try exact I.
  apply (where_clause_parameterized ids) in Hw.
  - destruct Hw as [Hsql ->]. cbn [app].
    apply sort_page_parameterized; [subst ids; auto with datatypes | exact Hsql].
  - subst ids. auto with datatypes.
  - eapply sql_text_count; [sql_build | sql_count].
Qed.

Lemma data_update_parameterized (body : list (string * value)) :
  let item := lookup "item" body in
  NoDup (keys item) ->
  parameterized
    (lookup "collectionName" body :: map VStr (keys_but_id item))
    (values_but_id item ++ [prop "_id" item])%list
    (Server.data_update body).
Proof.
  intros item Hnd. unfold Server.data_update. fold item.
  destruct (truthy (lookup "collectionName" body)); cbn [negb]; [|exact I].
  destruct (negb (truthy item) || negb (truthy (prop "_id" item))); [exact I|].
  fold (keys_but_id item).
  destruct (join ", " _ =? ""); [exact I|].
  cbv beta iota zeta. unfold parameterized.
  rewrite (update_values item Hnd). split; [|reflexivity].
  eapply sql_text_count.
  - eapply sql_text_app; [sql_build|].
    eapply sql_text_app; [sql_build|].
    eapply sql_text_app; [sql_build|].
    eapply sql_text_app; [|sql_build].
    apply (sql_join _ ", " 1); [sql_build|].
    intros x Hx. apply in_map_iff in Hx. destruct Hx as [key [<- Hin]].
    eapply (sql_text_app _ 0 1); [|sql_build].
    apply sql_id. right. now apply in_map.
  - rewrite length_app, length_map, keys_but_id_length. cbn [List.length]. lia.
Qed.

Lemma data_remove_parameterized (body : list (string * value)) :
  parameterized [lookup "collectionName" body] [lookup "itemId" body]
    (Server.data_remove body).
Proof.
  unfold Server.data_remove.
  destruct (truthy (lookup "collectionName" body)); cbn [negb]; [|exact I].
  destruct (truthy (lookup "itemId" body)); cbn [negb]; [|exact I].
  cbv beta iota zeta. unfold parameterized. split; [|reflexivity].
  eapply sql_text_count; [sql_build | sql_count].
Qed.

End Parameterized.

Example update_statement :
  @Server.data_update mysql2
    [("collectionName", VStr "t");
     ("item", VObj [("name", VStr "b"); ("_id", VNum 7); ("age", VNum 5)])]
  = Statement "UPDATE `t` SET `name` = ?, `age` = ? WHERE _id = ?"
      [VStr "b"; VNum 5; VNum 7].
Proof. reflexivity. Qed.

(** C1.  For each structured CRUD request (items/find, data/find of either
    server, data/count, data/insert, data/update, data/remove) that reaches
    the database, the statement text consists of fixed keywords, of the
    collection and field identifiers of the request passed through
    [escapeId], and of one [?] placeholder per positional parameter; the
    positional parameters are exactly the filter or payload values of the
    request, in order.  No value is written into the text.  (The [_id] of
    the WHERE clause of update and remove is part of the fixed text, not a
    name taken from the request; an item is a JavaScript object, so its
    keys are distinct.) *)
Theorem statements_parameterized {P : Platform} (body : list (string * value)) :
  parameterized
    (lookup "table" body :: fields_of (lookup "filter" body))
    (values (lookup "filter" body) ++ given (lookup "limit" body)
       ++ given (lookup "offset" body))%list
    (Shared.items_find body)
  /\ parameterized
       (lookup "collectionName" body
          :: fields_of (lookup "filter" body)
          ++ map (prop "fieldName") (elements (lookup "sort" body)))%list
       (values (lookup "filter" body) ++ page_values body)%list
       (Hostinger.data_find body)
  /\ parameterized
       (lookup "collectionName" body
          :: prop "fieldName" (lookup "filter" body)
          :: map (prop "fieldName") (elements (lookup "sort" body)))
       (clause_values (lookup "filter" body) ++ page_values body)%list
       (Server.data_find body)
  /\ parameterized
       (lookup "collectionName" body :: fields_of (lookup "filter" body))
       (values (lookup "filter" body))
       (Shared.data_count body)
  /\ parameterized
       (lookup "collectionName" body
          :: fields_of (or_else (lookup "item" body) (lookup "data" body)))
       (values (or_else (lookup "item" body) (lookup "data" body)))
       (Shared.data_insert body)
  /\ (NoDup (keys (lookup "item" body)) ->
      parameterized
        (lookup "collectionName" body :: map VStr (keys_but_id (lookup "item" body)))
        (values_but_id (lookup "item" body) ++ [prop "_id" (lookup "item" body)])%list
        (Server.data_update body))
  /\ parameterized [lookup "collectionName" body] [lookup "itemId" body]
       (Server.data_remove body).
Proof.
  split; [apply items_find_parameterized|].
  split; [apply hostinger_data_find_parameterized|].
  split; [apply server_data_find_parameterized|].
  split; [apply data_count_parameterized|].
  split; [apply data_insert_parameterized|].
  split; [apply data_update_parameterized | apply data_remove_parameterized].
Qed.

Lemma statements_parameterized_witness :
  NoDup (keys (lookup "item" Sample.update_request))
  /\ @parameterized mysql2 [VStr "t"; VStr "name"] [VStr "b"; VNum 7]
       (@Server.data_update mysql2 Sample.update_request).
Proof.
  assert (Hnd : NoDup (keys (lookup "item" Sample.update_request))).
  { repeat constructor; cbn; intuition discriminate. }
  split; [exact Hnd|].
  exact (proj1 (proj2 (proj2 (proj2 (proj2 (proj2
           (@statements_parameterized mysql2 Sample.update_request)))))) Hnd).
Defined.

(** *** The blocks of data/find only append *)

Lemma Statement_inv (sql sql' : string) (params params' : list value) :
  sql = sql' -> params = params' -> Statement sql params = Statement sql' params'.
Proof. now intros -> ->. Qed.

Lemma lookup_without (k : string) (names : list string) (body : list (string * value)) :
  lookup k (without names body)
  = if existsb (String.eqb k) names then VUndefined else lookup k body.
Proof.
  induction body as [|[key v] body IH]; cbn [without filter lookup].
  - now destruct (existsb _ names).
  - fold (without names body).
    destruct (String.eqb_spec key k) as [->|Hneq].
    + destruct (existsb (String.eqb k) names) eqn:Hk; cbn [negb].
      * rewrite IH. rewrite ?Hk. reflexivity.
      * cbn [lookup]. now rewrite String.eqb_refl.
    + destruct (existsb (String.eqb key) names); cbn [negb lookup]; [exact IH|].
      apply String.eqb_neq in Hneq. now rewrite Hneq, IH.
Qed.


Section Prefixes.
Context {P : Platform}.



Lemma where_clause_prefix (filter : value) (sql : string) (params : list value) :
  Server.where_clause filter sql params
  = match Server.where_clause filter "" [] with
    | Statement clause vals => Statement (sql ++ clause) (params ++ vals)%list
    | other => other
    end.
Proof.
  unfold Server.where_clause.
  destruct (truthy filter && (0 <? List.length (keys filter))%nat).
  - destruct (negb _); [reflexivity|].
    destruct (is_str "$hasSome" (prop "operator" filter)).
    + destruct (prop "value" filter); reflexivity.
    + destruct (is_str "$eq" (prop "operator" filter)); [reflexivity|].
      now rewrite append_nil_r, app_nil_r.
  - now rewrite append_nil_r, app_nil_r.
Qed.


End Prefixes.

(** *** Filter translation *)

Section Filters.
Context {P : Platform}.


Lemma falsy_block (f : value) :
  truthy f = false -> truthy f && (0 <? List.length (keys f))%nat = false.
Proof. now intros ->. Qed.

End Filters.




(** *** Insert *)

(** The SQL text the specification quotes for the sample insert is not what
    the handler builds: the table and the fields go through [escapeId],
    which puts them between backticks. *)
Lemma insert_statement_counterexample :
  @Shared.data_insert mysql2 Sample.insert_request
  = Statement "INSERT INTO `t` (`name`, `age`) VALUES (?, ?)" [VStr "a"; VNum 5]
  /\ @Shared.data_insert mysql2 Sample.insert_request
     <> Statement "INSERT INTO t (name, age) VALUES (?, ?)" [VStr "a"; VNum 5].
Proof. split; [reflexivity | discriminate]. Qed.

(** C3, as the code has it.  For a string collection name and a non-empty
    object payload ([item], or [data] when there is no [item]), the field
    list, the placeholder list and the parameter list all follow
    [Object.entries(payload)]: the i-th field is the escaped i-th key, the
    i-th placeholder is [?] and the i-th parameter is the value of the i-th
    key.  The payload [{name: a, age: 5}] on table [t] gives
    [INSERT INTO <t> (<name>, <age>) VALUES (?, ?)] with each name escaped
    (between backticks with mysql2) and the parameters [a, 5] in that
    order. *)
Theorem insert_alignment {P : Platform} (body : list (string * value)) :
  let collectionName := lookup "collectionName" body in
  let payload := or_else (lookup "item" body) (lookup "data" body) in
  let fields := map (fun key => escapeId (VStr key)) (keys payload) in
  let placeholders := map (fun _ : string => "?") (keys payload) in
  (truthy collectionName = true -> typeof collectionName = "string" ->
   truthy payload = true -> typeof payload = "object" -> keys payload <> [] ->
   Shared.data_insert body
   = Statement ("INSERT INTO " ++ escapeId collectionName ++ " (" ++ join ", " fields
                ++ ") VALUES (" ++ join ", " placeholders ++ ")")
       (values payload)
   /\ forall i key v,
        nth_error (entries payload) i = Some (key, v) ->
        nth_error fields i = Some (escapeId (VStr key))
        /\ nth_error placeholders i = Some "?"
        /\ nth_error (values payload) i = Some v)
  /\ Shared.data_insert Sample.insert_request
     = Statement ("INSERT INTO " ++ escapeId (VStr "t") ++ " (" ++ escapeId (VStr "name")
                  ++ ", " ++ escapeId (VStr "age") ++ ") VALUES (?, ?)")
         [VStr "a"; VNum 5]
  /\ @Shared.data_insert mysql2 Sample.insert_request
     = Statement "INSERT INTO `t` (`name`, `age`) VALUES (?, ?)" [VStr "a"; VNum 5].
Proof.
  intros collectionName payload fields placeholders.
  split; [|split; [|reflexivity]].
  - intros Hc Hs Hp Ho Hk. split.
    + unfold Shared.data_insert. fold collectionName payload.
      rewrite Hc, Hs, Hp, Ho. cbn [negb orb String.eqb Ascii.eqb Bool.eqb andb].
      destruct (keys payload) as [|k ks] eqn:Ek; [congruence|].
      cbn [List.length Nat.eqb]. rewrite insert_loop. fold (keys payload).
      rewrite Ek. reflexivity.
    + intros i key v Hi. unfold fields, placeholders, values, keys.
      rewrite !nth_error_map, Hi. repeat split.
  - unfold Shared.data_insert.
    cbn [Sample.insert_request lookup String.eqb Ascii.eqb Bool.eqb or_else truthy
         typeof negb orb keys entries map fst List.length Nat.eqb].
    rewrite insert_loop.
    cbn [map fst snd app join String.concat].
    apply Statement_inv; [|reflexivity].
    now rewrite !append_assoc.
Qed.

Lemma insert_alignment_witness :
  truthy (VStr "t") = true /\ typeof (VStr "t") = "string"
  /\ truthy (VObj [("name", VStr "a"); ("age", VNum 5)]) = true
  /\ typeof (VObj [("name", VStr "a"); ("age", VNum 5)]) = "object"
  /\ keys (VObj [("name", VStr "a"); ("age", VNum 5)]) <> []
  /\ nth_error (entries (VObj [("name", VStr "a"); ("age", VNum 5)])) 1
     = Some ("age", VNum 5)
  /\ nth_error (values (VObj [("name", VStr "a"); ("age", VNum 5)])) 1 = Some (VNum 5).
Proof.
  assert (Hk : keys (VObj [("name", VStr "a"); ("age", VNum 5)]) <> [])
    by (cbn; discriminate).
  repeat (split; [reflexivity|]). split; [exact Hk|]. split; [reflexivity|].
  exact (proj2 (proj2 (proj2 (proj1 (@insert_alignment mysql2 Sample.insert_request)
           eq_refl eq_refl eq_refl eq_refl Hk) 1%nat "age" (VNum 5) eq_refl))).
Defined.

(** *** Update *)






(** *** Pagination and sort *)


Example find_statement :
  @Server.data_find mysql2 Sample.find_request
  = Statement
      "SELECT * FROM `t` WHERE `age` IN (?,?) ORDER BY `name` ASC, `age` DESC LIMIT ?, ?"
      [VNum 1; VNum 2; VNum 20; VNum 10].
Proof. reflexivity. Qed.

(** items/find pages on its own terms: [limit] and [offset] are applied
    one by one. *)
Example items_find_limit_alone :
  @Shared.items_find mysql2 [("table", VStr "t"); ("limit", VNum 5)]
  = Statement "SELECT * FROM `t` LIMIT ?" [VNum 5].
Proof. reflexivity. Qed.

(** What data/find builds before the sort and page blocks. *)

Section Shapes.
Context {P : Platform}.





End Shapes.






(** *** Schemas of named collections *)

Lemma executeQuery_outcome (connection : connection) (query : string)
    (binds : list value) :
  fst (executeQuery (Return connection) query binds)
  = match execute connection query binds with
    | Return rows => Return (or_else rows (VArr []))
    | Throw err => Throw err
    end.
Proof.
  unfold executeQuery, release.
  destruct (execute connection query binds); destruct (end_ connection) as [[]|];
    reflexivity.
Qed.

(** A rejected DESCRIBE of any named table ends the loop of schemas/find
    with a throw: the skip branch is never reached for it. *)
Lemma find_each_rejected {P : Platform} (connection : connection) (table : value)
    (schemaIds schemas : list value) :
  In table schemaIds ->
  (exists err, execute connection ("DESCRIBE " ++ escapeId table) [] = Throw err) ->
  exists err, fst (Schema.find_each (Return connection) schemaIds schemas) = Throw err.
Proof.
  intros Hin [err Herr]. revert schemas.
  induction schemaIds as [|t rest IH]; intros schemas; [contradiction|].
  cbn [Schema.find_each].
  pose proof (executeQuery_outcome connection ("DESCRIBE " ++ escapeId t) []) as Hq.
  destruct (executeQuery (Return connection) ("DESCRIBE " ++ escapeId t) [])
    as [[columnsResult | e0] trace]; cbn [fst] in Hq.
  - destruct Hin as [-> | Hin].
    + rewrite Herr in Hq. discriminate.
    + specialize (IH Hin). cbn [bind].
      destruct columnsResult as [| | | | |columns|];
        try solve [ destruct (IH schemas) as [e He]; cbn [emit bind];
                    destruct (Schema.find_each _ rest schemas) as [[r|e'] t'];
                    cbn in He |- *; [discriminate | eauto] ].
      destruct (Schema.for_columns Schema.find_column columns Schema.identifier_fields)
        as [fields | e1]; cbn [bind]; [|cbn [fst]; eauto].
      destruct (IH (schemas ++ [Schema.schema t fields])%list) as [e He].
      destruct (Schema.find_each _ rest _) as [[r|e'] t']; cbn in He |- *;
        [discriminate | eauto].
  - cbn [bind fst]. eauto.
Qed.

Lemma schemas_find_rejected {P : Platform} (connection : connection)
    (body : list (string * value)) (schemaIds : list value) (table : value) :
  lookup "schemaIds" body = VArr schemaIds -> In table schemaIds ->
  (exists err, execute connection ("DESCRIBE " ++ escapeId table) [] = Throw err) ->
  match fst (Schema.schemas_find (Return connection) body) with
  | Return answer => answer = (500%Z, error_body "Erro interno do servidor")
  | Throw _ => True
  end.
Proof.
  intros Hids Hin Herr. unfold Schema.schemas_find. rewrite Hids.
  destruct schemaIds as [|t rest]; [contradiction|].
  destruct (find_each_rejected connection table (t :: rest) [] Hin Herr) as [e He].
  destruct (Schema.find_each (Return connection) (t :: rest) []) as [[r|e'] trace];
    cbn in He; [discriminate|].
  destruct e' as [|reason]; [reflexivity|].
  cbn [bind try_catch Schema.read_message]. destruct (nullish reason); [exact I | reflexivity].
Qed.

(** C7 at a request that names an existing and a missing table: the
    DESCRIBE of the missing one is rejected, [executeQuery] rethrows, and
    the handler answers 500 without any schema; the same request without
    the missing name is answered 200 with the schema of [users]. *)
Theorem schemas_find_missing_table :
  fst (@Schema.schemas_find mysql2 (Return Sample.users_only)
         [("schemaIds", VArr [VStr "users"; VStr "ghost"])])
  = Return (500%Z, error_body "Erro interno do servidor")
  /\ exists fields,
       fst (@Schema.schemas_find mysql2 (Return Sample.users_only)
              [("schemaIds", VArr [VStr "users"])])
       = Return (200%Z, VObj [("schemas", VArr [Schema.schema (VStr "users") fields])])
       /\ map fst fields = ["_id"; "_owner"; "age"].
Proof.
  split; [reflexivity|]. eexists. split; reflexivity.
Qed.

(** C8 at a [$hasSome] clause with the empty array: the request is not
    rejected; the statement carries an IN-list with nothing in it and no
    parameter. *)
Theorem hasSome_empty_array :
  @Server.data_find mysql2
    (Sample.filter_request (Sample.clause "$hasSome" (VArr [])))
  = Statement "SELECT * FROM `t` WHERE `age` IN ()" [].
Proof. reflexivity. Qed.

(** ** More of the servers *)

(** *** The access gate *)

Lemma chain_object (k : string) (v w : value) :
  truthy w = true -> Gate.chain k v = w ->
  (exists o, v = VObj o /\ lookup k o = w) \/ (k = "length" /\ exists n, w = VNum n).
Proof.
  intros Hw. unfold Gate.chain.
  destruct v as [| |b|n|s|l|o]; cbn [nullish prop]; intros <-; try discriminate.
  - destruct (String.eqb_spec k "length") as [->|_]; [right; eauto | discriminate].
  - destruct (String.eqb_spec k "length") as [->|_]; [right; eauto | discriminate].
  - left. eauto.
Qed.

(** X1.  [validateSecretKey] lets a request through exactly when a secret
    is configured, is not the empty string, and the body is an object
    whose [requestContext] is an object whose [settings] is an object whose
    [secretKey] is that very string. *)
Theorem gate_passes_iff (SECRET_KEY : option string) (body : value) :
  Gate.validateSecretKey SECRET_KEY body = true
  <-> exists secret o requestContext settings,
        SECRET_KEY = Some secret /\ secret <> ""
        /\ body = VObj o
        /\ lookup "requestContext" o = VObj requestContext
        /\ lookup "settings" requestContext = VObj settings
        /\ lookup "secretKey" settings = VStr secret.
Proof.
  unfold Gate.validateSecretKey. split.
  - destruct (truthy _) eqn:Ht; cbn [negb orb]; [|discriminate].
    destruct (Gate.is_env SECRET_KEY _) eqn:He; cbn [negb]; [intros _|discriminate].
    remember (Gate.chain "secretKey" _) as key eqn:Hkey. symmetry in Hkey.
    destruct SECRET_KEY as [secret|], key as [| |b|n|s|l|o]; try discriminate.
    cbn [Gate.is_env] in He. apply String.eqb_eq in He. subst s.
    destruct (chain_object _ _ _ Ht Hkey) as [[st [Hst Hs]] | [H _]]; [|discriminate].
    destruct (chain_object _ _ (VObj st) eq_refl Hst) as [[rc [Hrc Hr]] | [H _]]; [|discriminate].
    destruct (chain_object _ _ (VObj rc) eq_refl Hrc) as [[o [-> Ho]] | [H _]]; [|discriminate].
    exists secret, o, rc, st. repeat split; try assumption.
    intros ->. discriminate.
  - intros (secret & o & rc & st & -> & Hne & -> & Hrc & Hst & Hs).
    unfold Gate.chain. cbn [nullish prop]. rewrite Hrc. cbn [nullish prop].
    rewrite Hst. cbn [nullish prop]. rewrite Hs. cbn [truthy Gate.is_env].
    rewrite String.eqb_refl. apply String.eqb_neq in Hne. now rewrite Hne.
Qed.

(** X2.  Without a configured secret, or with the empty string as secret,
    every guarded endpoint answers 403 to every request, whatever the body
    and the handler, and the handler does not run. *)
Theorem gate_fails_closed (handler : list (string * value) -> io (Z * value))
    (body : value) :
  let refused :=
    (Return (403%Z, error_body "Acesso não autorizado"),
     [LogWarn "Tentativa de acesso não autorizado."]) in
  Gate.guarded None handler body = refused
  /\ Gate.guarded (Some "") handler body = refused.
Proof.
  assert (H : forall S, (S = None \/ S = Some "") ->
                        Gate.validateSecretKey S body = false).
  { intros S HS. destruct (Gate.validateSecretKey S body) eqn:Hv; [|reflexivity].
    apply gate_passes_iff in Hv.
    destruct Hv as (secret & _ & _ & _ & -> & Hne & _).
    destruct HS as [HS|HS]; [discriminate | congruence]. }
  unfold Gate.guarded. rewrite !H by auto. split; reflexivity.
Qed.

(** *** The raw SQL validation *)

Lemma toUpperCase_app (a b : string) :
  Raw.toUpperCase (a ++ b) = Raw.toUpperCase a ++ Raw.toUpperCase b.
Proof. induction a as [|c a IH]; cbn; [reflexivity | now rewrite IH]. Qed.

Lemma contains_embedded (pat s before after : string) :
  contains pat s -> contains pat (before ++ s ++ after).
Proof.
  intros [x [y ->]]. exists (before ++ x), (y ++ after).
  now rewrite !append_assoc.
Qed.

Lemma first_forbidden_none (keywords : list string) (text : string) :
  Raw.first_forbidden keywords text = None
  <-> forall keyword, In keyword keywords -> ~ contains keyword text.
Proof.
  induction keywords as [|k ks IH]; cbn [Raw.first_forbidden].
  - split; [intros _ keyword [] | reflexivity].
  - destruct (includes k text) eqn:Hk.
    + split; [discriminate|]. intros H. exfalso.
      apply (H k); [now left | now apply includes_spec].
    + rewrite IH. apply includes_false in Hk. split.
      * intros H keyword [<- | Hin]; auto.
      * intros H keyword Hin. apply H. now right.
Qed.

Lemma first_forbidden_some (keywords : list string) (text keyword : string) :
  In keyword keywords -> contains keyword text ->
  exists found, In found keywords /\ Raw.first_forbidden keywords text = Some found.
Proof.
  intros Hin Hc.
  destruct (Raw.first_forbidden keywords text) as [found|] eqn:Hf.
  - exists found. split; [|reflexivity].
    clear Hin Hc. induction keywords as [|k ks IH]; [discriminate|].
    cbn [Raw.first_forbidden] in Hf. destruct (includes k text).
    + injection Hf as ->. now left.
    + right. auto.
  - exfalso. exact (proj1 (first_forbidden_none keywords text) Hf keyword Hin Hc).
Qed.

Example validateQuery_select : Raw.validateQuery (VStr "SELECT * FROM x") = Return tt.
Proof. reflexivity. Qed.

Example validateQuery_drop :
  Raw.validateQuery (VStr "drop table x")
  = Throw (Raw.Error "Uso da palavra-chave 'DROP' não permitido").
Proof. reflexivity. Qed.

(** X3.  [validateQuery] accepts exactly the non-empty strings whose
    uppercased text contains none of DROP, DELETE, ALTER and TRUNCATE;
    everything else, a value that is no string included, makes it throw. *)
Theorem validateQuery_accepts_iff (sql : value) :
  Raw.validateQuery sql = Return tt
  <-> exists s, sql = VStr s /\ s <> ""
                /\ forall keyword, In keyword Raw.forbiddenKeywords ->
                                   ~ contains keyword (Raw.toUpperCase s).
Proof.
  unfold Raw.validateQuery. split.
  - destruct sql as [| |b|n|s|l|o];
      cbn [typeof String.eqb Ascii.eqb Bool.eqb negb];
      rewrite ?orb_true_r; try discriminate.
    cbn [truthy]. rewrite orb_false_r, negb_involutive.
    destruct (String.eqb_spec s "") as [->|Hne]; [discriminate|].
    cbn [toString].
    destruct (Raw.first_forbidden _ _) eqn:Hf; [discriminate|]. intros _.
    exists s. split; [reflexivity|]. split; [assumption|].
    exact (proj1 (first_forbidden_none _ _) Hf).
  - intros (s & -> & Hne & Hnone). cbn [truthy typeof toString].
    apply String.eqb_neq in Hne. rewrite Hne. cbn [negb orb String.eqb Ascii.eqb Bool.eqb].
    apply first_forbidden_none in Hnone. now rewrite Hnone.
Qed.

(** X4.  The denylist is a case-insensitive substring match: a text that
    contains any casing of a forbidden keyword anywhere, inside a longer
    word included, is rejected with the message naming a forbidden
    keyword. *)
Theorem validateQuery_rejects_any_casing (keyword s before after : string) :
  In keyword Raw.forbiddenKeywords -> Raw.toUpperCase s = keyword ->
  exists found,
    In found Raw.forbiddenKeywords
    /\ Raw.validateQuery (VStr (before ++ s ++ after))
       = Throw (Raw.Error ("Uso da palavra-chave '" ++ found ++ "' não permitido")).
Proof.
  intros Hin Hs.
  assert (Hc : contains keyword (Raw.toUpperCase (before ++ s ++ after))).
  { rewrite !toUpperCase_app, Hs. now exists (Raw.toUpperCase before), (Raw.toUpperCase after). }
  destruct (first_forbidden_some _ _ _ Hin Hc) as [found [Hfound Hf]].
  exists found. split; [exact Hfound|].
  unfold Raw.validateQuery. cbn [truthy typeof toString].
  assert (Hne : before ++ s ++ after <> "").
  { intros H. apply (f_equal String.length) in H.
    rewrite !length_append in H.
    assert (String.length s <> 0%nat); [|cbn in H; lia].
    destruct s; [|discriminate].
    cbn in Hs. subst keyword. cbn in Hin. intuition discriminate. }
  apply String.eqb_neq in Hne. rewrite Hne.
  cbn [negb orb String.eqb Ascii.eqb Bool.eqb]. now rewrite Hf.
Qed.

Lemma validateQuery_rejects_any_casing_witness :
  In "DROP" Raw.forbiddenKeywords /\ Raw.toUpperCase "dRoP" = "DROP"
  /\ exists found,
       In found Raw.forbiddenKeywords
       /\ Raw.validateQuery (VStr ("SELECT * FROM " ++ "dRoP" ++ "down_items"))
          = Throw (Raw.Error ("Uso da palavra-chave '" ++ found ++ "' não permitido")).
Proof.
  assert (Hin : In "DROP" Raw.forbiddenKeywords) by (cbn; tauto).
  split; [exact Hin|]. split; [reflexivity|].
  exact (validateQuery_rejects_any_casing "DROP" "dRoP" "SELECT * FROM " "down_items"
           Hin eq_refl).
Defined.

(** *** Traces of computations *)

Lemma executed_app (t t' : list event) :
  executed (t ++ t') = (executed t ++ executed t')%list.
Proof.
  induction t as [|e t IH]; [reflexivity|].
  destruct e; cbn [app executed]; now rewrite IH.
Qed.

Lemma bind_cases {A B : Type} (m : io A) (f : A -> io B) :
  bind m f
  = match fst m with
    | Return a => (fst (f a), (snd m ++ snd (f a))%list)
    | Throw err => (Throw err, snd m)
    end.
Proof. destruct m as [[a|err] t]; cbn; [destruct (f a)|]; reflexivity. Qed.

Lemma try_catch_cases {A : Type} (m : io A) (h : error -> io A) :
  try_catch m h
  = match fst m with
    | Return a => (Return a, snd m)
    | Throw err => (fst (h err), (snd m ++ snd (h err))%list)
    end.
Proof. destruct m as [[a|err] t]; cbn; [|destruct (h err)]; reflexivity. Qed.

Lemma executeQuery_cases (getConnection : completion connection) (query : string)
    (binds : list value) :
  match getConnection with
  | Return connection =>
      fst (executeQuery getConnection query binds)
      = match execute connection query binds with
        | Return rows => Return (or_else rows (VArr []))
        | Throw err => Throw err
        end
      /\ executed (snd (executeQuery getConnection query binds)) = [(query, binds)]
  | Throw err =>
      fst (executeQuery getConnection query binds) = Throw err
      /\ executed (snd (executeQuery getConnection query binds)) = []
  end.
Proof.
  destruct getConnection as [connection|err]; [|split; reflexivity].
  unfold executeQuery, release.
  destruct (execute connection query binds); destruct (end_ connection) as [[]|];
    split; reflexivity.
Qed.

Lemma executeQuery_executed_incl (getConnection : completion connection)
    (query : string) (binds : list value) :
  executed (snd (executeQuery getConnection query binds)) = []
  \/ executed (snd (executeQuery getConnection query binds)) = [(query, binds)].
Proof.
  pose proof (executeQuery_cases getConnection query binds) as H.
  destruct getConnection; destruct H as [_ H]; auto.
Qed.

Lemma or_else_truthy (rows : value) : truthy (or_else rows (VArr [])) = true.
Proof. unfold or_else. destruct (truthy rows) eqn:H; [exact H | reflexivity]. Qed.

(** X5.  [executeQuery] never resolves to a falsy value: rows that are
    falsy are replaced by the empty array, so what a handler receives is
    always truthy. *)
Theorem executeQuery_never_falsy (getConnection : completion connection)
    (query : string) (binds : list value) :
  match fst (executeQuery getConnection query binds) with
  | Return result => truthy result = true
  | Throw _ => True
  end.
Proof.
  pose proof (executeQuery_cases getConnection query binds) as H.
  destruct getConnection as [connection|err]; destruct H as [-> _]; [|exact I].
  destruct (execute connection query binds); [apply or_else_truthy | exact I].
Qed.

Section RoutesTraces.
Context {P : Platform}.
Variable getConnection : completion connection.
Variable typeErrorText : string.

Lemma caught_executed (label : string) (status : Z) (body : value -> value)
    (err : error) :
  executed (snd (Routes.caught typeErrorText label status body err)) = [].
Proof.
  unfold Routes.caught. destruct (Routes.message typeErrorText err); reflexivity.
Qed.

(** A catch block answers unless reading [err.message] throws. *)
Lemma caught_answers (label : string) (status : Z) (body : value -> value)
    (err : error) :
  (forall reason, err = Rejected reason -> nullish reason = false) ->
  exists msg, fst (Routes.caught typeErrorText label status body err)
              = Return (status, body msg).
Proof.
  intros Hr. unfold Routes.caught, Routes.message, Routes.member.
  destruct err as [|reason]; [eexists; reflexivity|].
  rewrite (Hr reason eq_refl). eexists; reflexivity.
Qed.

End RoutesTraces.

(** *** The raw SQL endpoints *)

Section RawRoutes.
Variable getConnection : completion connection.
Variable typeErrorText : string.

Lemma raw_executed (body : list (string * value)) (reply : value -> value) :
  executed (snd (Routes.raw getConnection body reply)) = []
  \/ exists s,
       lookup "sql" body = VStr s /\ Raw.validateQuery (VStr s) = Return tt
       /\ executed (snd (Routes.raw getConnection body reply)) = [(s, [])].
Proof.
  unfold Routes.raw.
  destruct (truthy (lookup "sql" body)); cbn [negb]; [|now left].
  destruct (Raw.validateQuery (lookup "sql" body)) as [[]|err] eqn:Hv; [|now left].
  destruct (proj1 (validateQuery_accepts_iff _) Hv) as (s & Hs & _).
  rewrite Hs in *. cbn [toString bind app].
  rewrite bind_cases.
  pose proof (executeQuery_cases getConnection s []) as Hq.
  destruct getConnection as [connection|err]; destruct Hq as [Hfst Hex].
  - right. exists s. split; [reflexivity|]. split; [exact Hv|].
    destruct (fst (executeQuery _ s [])); cbn [snd fst ret];
      rewrite ?executed_app, Hex; reflexivity.
  - left. rewrite Hfst. exact Hex.
Qed.

Lemma handler_executed (attempt : io (Z * value)) (label : string) (status : Z)
    (body : value -> value) :
  executed (snd (try_catch attempt (Routes.caught typeErrorText label status body)))
  = executed (snd attempt).
Proof.
  rewrite try_catch_cases. destruct (fst attempt); cbn [snd]; [reflexivity|].
  now rewrite executed_app, caught_executed, app_nil_r.
Qed.

(** X6.  Neither raw endpoint ever hands the database a statement that
    [validateQuery] refuses: GET /api/query and POST /api/update execute
    nothing, or exactly one statement, which is the [sql] string of the body
    unchanged, accepted by [validateQuery], with no parameters. *)
Theorem raw_endpoints_execute_validated (body : list (string * value)) :
  let validated (run : io (Z * value)) :=
    executed (snd run) = []
    \/ exists s,
         lookup "sql" body = VStr s /\ Raw.validateQuery (VStr s) = Return tt
         /\ executed (snd run) = [(s, [])] in
  validated (Routes.query getConnection typeErrorText body)
  /\ validated (Routes.update getConnection typeErrorText body).
Proof.
  unfold Routes.query, Routes.update. cbv zeta. rewrite !handler_executed.
  split; apply raw_executed.
Qed.

(** X7.  A failure of the database on a raw endpoint is answered 400, not
    500, and the answer carries the driver's own message: when the statement
    is valid and the driver rejects it with an error object, both endpoints
    reply [400 {error: message of that object}]. *)
Theorem raw_endpoints_report_driver_message (body : list (string * value))
    (connection : connection) (s : string) (reason : value) :
  getConnection = Return connection ->
  lookup "sql" body = VStr s -> Raw.validateQuery (VStr s) = Return tt ->
  execute connection s [] = Throw (Rejected reason) -> nullish reason = false ->
  fst (Routes.query getConnection typeErrorText body)
  = Return (400%Z, VObj [("error", prop "message" reason)])
  /\ fst (Routes.update getConnection typeErrorText body)
     = Return (400%Z, VObj [("error", prop "message" reason)]).
Proof.
  intros Hc Hs Hv He Hr.
  assert (Hne : truthy (VStr s) = true).
  { destruct (proj1 (validateQuery_accepts_iff _) Hv) as (s' & [= <-] & Hne & _).
    cbn. apply String.eqb_neq in Hne. now rewrite Hne. }
  assert (Hraw : forall reply,
             fst (Routes.raw getConnection body reply) = Throw (Rejected reason)).
  { intros reply. unfold Routes.raw. rewrite Hs, Hne, Hv. cbn [negb toString bind app].
    rewrite bind_cases.
    pose proof (executeQuery_cases getConnection s []) as Hq. rewrite Hc in Hq.
    destruct Hq as [Hq _]. rewrite Hc. rewrite Hq, He. reflexivity. }
  unfold Routes.query, Routes.update. rewrite !try_catch_cases, !Hraw.
  unfold Routes.caught, Routes.message, Routes.member. rewrite Hr. split; reflexivity.
Qed.

End RawRoutes.

Lemma raw_endpoints_report_driver_message_witness :
  Raw.validateQuery (VStr "SELECT * FROM x") = Return tt
  /\ nullish Fixture.no_such_table = false
  /\ fst (Routes.query (Return (Fixture.failing Fixture.no_such_table)) ""
            [("sql", VStr "SELECT * FROM x")])
     = Return (400%Z, VObj [("error", VStr "Table 'db.x' doesn't exist")]).
Proof.
  split; [reflexivity|]. split; [reflexivity|].
  exact (proj1 (raw_endpoints_report_driver_message
                  (Return (Fixture.failing Fixture.no_such_table)) ""
                  [("sql", VStr "SELECT * FROM x")]
                  (Fixture.failing Fixture.no_such_table) "SELECT * FROM x"
                  Fixture.no_such_table eq_refl eq_refl eq_refl eq_refl eq_refl)).
Defined.

(** *** Update and remove, from the request to the response *)

Section Crud.
Context {P : Platform}.
Variable getConnection : completion connection.
Variable typeErrorText : string.

Lemma run_executed (logged : bool) (b : built) (rest : value -> io (Z * value)) :
  (forall result, executed (snd (rest result)) = []) ->
  executed (snd (Routes.run getConnection logged b rest))
  = match b, getConnection with
    | Statement sql params, Return _ => [(sql, params)]
    | _, _ => []
    end.
Proof.
  intros Hrest. unfold Routes.run.
  destruct b as [status body|sql params|]; try reflexivity.
  pose proof (executeQuery_cases getConnection sql params) as Hq.
  destruct (executeQuery getConnection sql params) as [[result|err] trace].
  - pose proof (Hrest result) as Hr. cbn [fst snd] in Hq.
    destruct logged; cbn [bind emit ret fst snd app executed];
      destruct (rest result) as [r t']; cbn [fst snd app executed] in *;
      rewrite executed_app, Hr, app_nil_r;
      destruct getConnection; destruct Hq as [_ Hq]; exact Hq.
  - cbn [fst snd] in *.
    destruct logged; cbn [bind emit ret fst snd app executed];
      destruct getConnection; destruct Hq as [_ Hq]; exact Hq.
Qed.

Lemma run_outcome (logged : bool) (sql : string) (params : list value)
    (rest : value -> io (Z * value)) (connection : connection) :
  getConnection = Return connection ->
  fst (Routes.run getConnection logged (Statement sql params) rest)
  = match execute connection sql params with
    | Return rows => fst (rest (or_else rows (VArr [])))
    | Throw err => Throw err
    end.
Proof.
  intros Hc. unfold Routes.run.
  pose proof (executeQuery_cases getConnection sql params) as Hq. rewrite Hc in Hq.
  destruct Hq as [Hq _]. rewrite <- Hc in Hq.
  destruct (executeQuery getConnection sql params) as [[result|err] trace].
  - cbn [fst] in Hq. destruct (execute connection sql params); [|discriminate].
    injection Hq as <-.
    destruct logged; cbn [bind emit ret fst snd]; destruct (rest result) as [r t'];
      reflexivity.
  - cbn [fst] in Hq. destruct (execute connection sql params); [discriminate|].
    injection Hq as <-. destruct logged; reflexivity.
Qed.

Lemma run_unconnected (logged : bool) (sql : string) (params : list value)
    (rest : value -> io (Z * value)) (err : error) :
  getConnection = Throw err ->
  fst (Routes.run getConnection logged (Statement sql params) rest) = Throw err.
Proof.
  intros Hc. unfold Routes.run. rewrite Hc. destruct logged; reflexivity.
Qed.

Lemma affected_executed (success : string) (result : value) :
  executed (snd (Routes.affected success result)) = [].
Proof.
  unfold Routes.affected, Routes.member. destruct (nullish result); [reflexivity|].
  cbn [bind]. destruct (Routes.is_zero _); reflexivity.
Qed.

(** X8.  data/remove never deletes without an identifier: it executes
    nothing, or exactly one statement, [DELETE FROM <table> WHERE _id = ?]
    with the truthy [itemId] of the request as its only parameter. *)
Theorem remove_only_by_id (body : list (string * value)) :
  let trace := snd (Routes.data_remove getConnection typeErrorText body) in
  executed trace = []
  \/ (truthy (lookup "collectionName" body) = true
      /\ truthy (lookup "itemId" body) = true
      /\ executed trace
         = [("DELETE FROM " ++ escapeId (lookup "collectionName" body) ++ " WHERE _id = ?",
             [lookup "itemId" body])]).
Proof.
  cbv zeta. unfold Routes.data_remove. rewrite handler_executed.
  rewrite run_executed by apply affected_executed.
  unfold Server.data_remove.
  destruct (truthy (lookup "collectionName" body)); cbn [negb]; [|now left].
  destruct (truthy (lookup "itemId" body)); cbn [negb]; [|now left].
  destruct getConnection; [right | left]; auto.
Qed.

(** X9.  data/update never updates without an identifier: it executes
    nothing, or exactly one statement, an UPDATE of the named table whose
    SET clause has one assignment per key other than [_id] and which ends
    with [WHERE _id = ?], the last parameter being the truthy [_id] of the
    item. *)
Theorem update_only_by_id (body : list (string * value)) :
  let item := lookup "item" body in
  let trace := snd (Routes.data_update getConnection typeErrorText body) in
  executed trace = []
  \/ (truthy (lookup "collectionName" body) = true
      /\ truthy (prop "_id" item) = true
      /\ exists vals,
           executed trace
           = [("UPDATE " ++ escapeId (lookup "collectionName" body) ++ " SET "
               ++ join ", " (map (fun key => escapeId (VStr key) ++ " = ?")
                               (keys_but_id item))
               ++ " WHERE _id = ?",
               (vals ++ [prop "_id" item])%list)]).
Proof.
  cbv zeta. unfold Routes.data_update. rewrite handler_executed.
  rewrite run_executed by apply affected_executed.
  unfold Server.data_update.
  destruct (truthy (lookup "collectionName" body)); cbn [negb]; [|now left].
  destruct (truthy (lookup "item" body)); cbn [negb orb]; [|now left].
  destruct (truthy (prop "_id" (lookup "item" body))); cbn [negb]; [|now left].
  fold (keys_but_id (lookup "item" body)).
  destruct (join ", " _ =? ""); [now left|].
  destruct getConnection; [right | now left].
  split; [reflexivity|]. split; [reflexivity|]. eexists. reflexivity.
Qed.

(** X10.  Once their statement has run, data/update and data/remove answer
    404 exactly when the driver reports [affectedRows] as the number 0, and
    otherwise 200 with the reported [affectedRows]; when the driver rejects
    the statement with an error object they answer 500 with the error's
    message as [details]. *)
Theorem update_remove_replies (body : list (string * value))
    (connection : connection) (sql : string) (params : list value) :
  let reply success rows :=
    let affectedRows := prop "affectedRows" (or_else rows (VArr [])) in
    if Routes.is_zero affectedRows
    then (404%Z, error_body "Registro não encontrado")
    else (200%Z, VObj [("message", VStr success); ("affectedRows", affectedRows)]) in
  let outcome success run :=
    match execute connection sql params with
    | Return rows => fst run = Return (reply success rows)
    | Throw TypeError =>
        fst run = Return (500%Z, Routes.internal_error_details (VStr typeErrorText))
    | Throw (Rejected reason) =>
        nullish reason = false ->
        fst run = Return (500%Z, Routes.internal_error_details (prop "message" reason))
    end in
  getConnection = Return connection ->
  (Server.data_update body = Statement sql params ->
   outcome "Registro atualizado com sucesso"
     (Routes.data_update getConnection typeErrorText body))
  /\ (Server.data_remove body = Statement sql params ->
      outcome "Registro removido com sucesso"
        (Routes.data_remove getConnection typeErrorText body)).
Proof.
  intros reply outcome Hc.
  assert (Hgen : forall success label,
             outcome success
               (try_catch
                  (Routes.run getConnection true (Statement sql params)
                     (Routes.affected success))
                  (Routes.caught typeErrorText label 500
                     Routes.internal_error_details))).
  { intros success label. unfold outcome.
    pose proof (run_outcome true sql params (Routes.affected success) connection Hc)
      as Hrun.
    rewrite try_catch_cases, Hrun.
    destruct (execute connection sql params) as [rows | [|reason]].
    - unfold Routes.affected, Routes.member, reply.
      assert (Hn : nullish (or_else rows (VArr [])) = false).
      { pose proof (or_else_truthy rows) as Ht.
        destruct (or_else rows (VArr [])); try reflexivity; discriminate Ht. }
      rewrite Hn. cbn [bind fst].
      destruct (Routes.is_zero _); reflexivity.
    - reflexivity.
    - intros Hr. unfold Routes.caught, Routes.message, Routes.member.
      rewrite Hr. reflexivity. }
  split; intros Hb.
  - unfold Routes.data_update. rewrite Hb. apply Hgen.
  - unfold Routes.data_remove. rewrite Hb. apply Hgen.
Qed.

End Crud.

Lemma update_remove_replies_witness :
  @Server.data_remove mysql2 [("collectionName", VStr "t"); ("itemId", VNum 7)]
  = Statement "DELETE FROM `t` WHERE _id = ?" [VNum 7]
  /\ fst (@Routes.data_remove mysql2
            (Return (Fixture.answering (VObj [("affectedRows", VNum 0)]))) ""
            [("collectionName", VStr "t"); ("itemId", VNum 7)])
     = Return (404%Z, error_body "Registro não encontrado").
Proof.
  split; [reflexivity|].
  exact (proj2 (@update_remove_replies mysql2
                  (Return (Fixture.answering (VObj [("affectedRows", VNum 0)]))) ""
                  [("collectionName", VStr "t"); ("itemId", VNum 7)]
                  (Fixture.answering (VObj [("affectedRows", VNum 0)]))
                  "DELETE FROM `t` WHERE _id = ?" [VNum 7] eq_refl) eq_refl).
Defined.

(** *** Insert, count and the single item *)

Section Crud2.
Context {P : Platform}.
Variable getConnection : completion connection.
Variable typeErrorText : string.

Lemma call_toString_string (v w : value) :
  Routes.call_toString v = Return w -> w = VStr (toString v).
Proof.
  destruct v as [| |b|n|s|l|o]; cbn [Routes.call_toString]; try discriminate;
    try (now intros [= <-]).
  destruct (lookup "toString" o); try discriminate. now intros [= <-].
Qed.

Lemma insert_invalid_status (body : list (string * value)) (status : Z) (reply : value) :
  Shared.data_insert body = Reply status reply -> status = 400%Z.
Proof.
  unfold Shared.data_insert.
  destruct (negb _ || negb _); [now intros [= <- _]|].
  destruct (negb _ || negb _ || _); [now intros [= <- _]|].
  destruct (fold_left _ _ _) as [[fields placeholders] vals]. discriminate.
Qed.

Lemma insert_never_thrown (body : list (string * value)) :
  Shared.data_insert body <> Thrown.
Proof.
  unfold Shared.data_insert.
  destruct (negb _ || negb _); [discriminate|].
  destruct (negb _ || negb _ || _); [discriminate|].
  destruct (fold_left _ _ _) as [[fields placeholders] vals]. discriminate.
Qed.

(** X11.  The identifier data/insert reports is never a number: a 200
    answer comes from an INSERT the driver has run, and carries [_id] as
    the string form of the [insertId] the driver reported for it, or as
    [null] when the driver reported none (or a falsy one, such as 0). *)
Theorem insert_reports_string_id (body : list (string * value)) (reply : value) :
  fst (Routes.data_insert getConnection typeErrorText body) = Return (200%Z, reply) ->
  exists connection sql params rows _id,
    getConnection = Return connection
    /\ Shared.data_insert body = Statement sql params
    /\ execute connection sql params = Return rows
    /\ reply = VObj [("_id", _id); ("message", VStr "Item inserido com sucesso.")]
    /\ (_id = VNull \/ exists s, _id = VStr s)
    /\ _id = let insertId := prop "insertId" (or_else rows (VArr [])) in
             if truthy insertId then VStr (toString insertId) else VNull.
Proof.
  unfold Routes.data_insert. rewrite try_catch_cases.
  destruct (Shared.data_insert body) as [status early|sql params|] eqn:Hb.
  - cbn [Routes.run ret fst]. intros [= -> _].
    apply insert_invalid_status in Hb. discriminate.
  - destruct getConnection as [connection|err] eqn:Hc.
    + rewrite (run_outcome (Return connection) false sql params _ connection eq_refl).
      destruct (execute connection sql params) as [rows|err] eqn:Hrun.
      * unfold Routes.member.
        destruct (nullish (or_else rows (VArr []))); cbn [bind fst].
        -- unfold Routes.caught. destruct (Routes.message _ _); cbn; discriminate.
        -- unfold or_else at 1 3.
           destruct (truthy (prop "insertId" (or_else rows (VArr [])))) eqn:Hid.
           ++ rewrite Hid.
              destruct (Routes.call_toString _) as [w|e] eqn:Hw; cbn [bind fst ret].
              ** intros [= <-]. apply call_toString_string in Hw. subst w.
                 exists connection, sql, params, rows. eexists.
                 repeat (split; [first [reflexivity | assumption]|]). split; [right; eauto|].
                 cbv zeta. now rewrite Hid.
              ** unfold Routes.caught. destruct (Routes.message _ _); cbn; discriminate.
           ++ cbn [truthy bind fst ret]. intros [= <-].
              exists connection, sql, params, rows. eexists.
              repeat (split; [first [reflexivity | assumption]|]). split; [now left|].
              cbv zeta. now rewrite Hid.
      * unfold Routes.caught. destruct (Routes.message _ _); cbn; discriminate.
    + rewrite (run_unconnected (Throw err) false sql params _ err eq_refl).
      unfold Routes.caught. destruct (Routes.message _ _); cbn; discriminate.
  - now apply insert_never_thrown in Hb.
Qed.

(** X12.  GET /api/items/:table/:id asks for the row by its identifier and
    nothing else: when the driver returns an array of rows the answer is 404
    for the empty array and otherwise 200 with the first row only; the one
    statement executed is [SELECT * FROM <table> WHERE _id = ?] with the
    [id] of the path as parameter. *)
Theorem items_get_first_row (table id : string) (connection : connection)
    (rows : list value) :
  let sql := "SELECT * FROM " ++ escapeId (VStr table) ++ " WHERE _id = ?" in
  getConnection = Return connection ->
  execute connection sql [VStr id] = Return (VArr rows) ->
  fst (Routes.items_get getConnection typeErrorText table id)
  = Return match rows with
           | [] => (404%Z, error_body "Item não encontrado")
           | row :: _ => (200%Z, VObj [("item", row)])
           end
  /\ executed (snd (Routes.items_get getConnection typeErrorText table id))
     = [(sql, [VStr id])].
Proof.
  intros sql Hc He. unfold Routes.items_get. fold sql.
  rewrite handler_executed, try_catch_cases, !bind_cases.
  pose proof (executeQuery_cases getConnection sql [VStr id]) as Hq.
  rewrite Hc in Hq. destruct Hq as [Hf Hx]. rewrite <- Hc in Hf, Hx.
  rewrite Hf, He. cbn [or_else truthy negb orb prop String.eqb Ascii.eqb Bool.eqb].
  destruct rows as [|row rest]; cbn [List.length Z.of_nat Routes.is_zero Z.eqb];
    cbn [fst snd ret Routes.first nth bind]; rewrite ?executed_app, Hx; split; reflexivity.
Qed.

(** X13.  data/count reports the [totalCount] of the first row the driver
    returns, and cannot answer 200 without one: an empty array of rows is
    answered 500. *)
Theorem count_reads_first_row (body : list (string * value)) (connection : connection)
    (sql : string) (params rows : list value) :
  getConnection = Return connection ->
  Shared.data_count body = Statement sql params ->
  execute connection sql params = Return (VArr rows) ->
  fst (Routes.data_count getConnection typeErrorText body)
  = Return match rows with
           | row :: _ =>
               if nullish row then (500%Z, error_body "Erro interno do servidor")
               else (200%Z, VObj [("totalCount", prop "totalCount" row)])
           | [] => (500%Z, error_body "Erro interno do servidor")
           end.
Proof.
  intros Hc Hb He. unfold Routes.data_count. rewrite Hb, try_catch_cases.
  rewrite (run_outcome getConnection false sql params _ connection Hc), He.
  cbn [or_else truthy Routes.first bind fst app].
  destruct rows as [|row rest]; cbn [nth Routes.member nullish bind fst]; [reflexivity|].
  unfold Routes.member. destruct (nullish row); reflexivity.
Qed.

End Crud2.

Lemma insert_reports_string_id_witness :
  fst (@Routes.data_insert mysql2
         (Return (Fixture.answering (VObj [("insertId", VNum 42)]))) ""
         Sample.insert_request)
  = Return (200%Z, VObj [("_id", VStr "42");
                         ("message", VStr "Item inserido com sucesso.")])
  /\ exists _id,
       VObj [("_id", VStr "42"); ("message", VStr "Item inserido com sucesso.")]
       = VObj [("_id", _id); ("message", VStr "Item inserido com sucesso.")]
       /\ (_id = VNull \/ exists s, _id = VStr s)
       /\ _id = VStr (toString (VNum 42)).
Proof.
  split; [reflexivity|].
  destruct (@insert_reports_string_id mysql2
              (Return (Fixture.answering (VObj [("insertId", VNum 42)]))) ""
              Sample.insert_request _ eq_refl)
    as (connection & sql & params & rows & _id & Hc & _ & Hrun & Hreply & Hshape & Hid).
  injection Hc as <-. injection Hrun as <-.
  exists _id. split; [exact Hreply|]. split; [exact Hshape | exact Hid].
Defined.

Lemma items_get_first_row_witness :
  fst (@Routes.items_get mysql2
         (Return (Fixture.answering (VArr [VObj [("_id", VStr "7")]; VNull]))) ""
         "t" "7")
  = Return (200%Z, VObj [("item", VObj [("_id", VStr "7")])]).
Proof.
  exact (proj1 (@items_get_first_row mysql2
                  (Return (Fixture.answering (VArr [VObj [("_id", VStr "7")]; VNull])))
                  "" "t" "7"
                  (Fixture.answering (VArr [VObj [("_id", VStr "7")]; VNull]))
                  [VObj [("_id", VStr "7")]; VNull] eq_refl eq_refl)).
Defined.

Lemma count_reads_first_row_witness :
  @Shared.data_count mysql2 (Sample.filter_request Sample.flat_filter)
  = Statement "SELECT COUNT(*) AS totalCount FROM `t` WHERE `name` = ? AND `age` = ?"
      [VStr "a"; VNum 5]
  /\ fst (@Routes.data_count mysql2
            (Return (Fixture.answering (VArr [VObj [("totalCount", VNum 3)]]))) ""
            (Sample.filter_request Sample.flat_filter))
     = Return (200%Z, VObj [("totalCount", VNum 3)]).
Proof.
  split; [reflexivity|].
  exact (@count_reads_first_row mysql2
           (Return (Fixture.answering (VArr [VObj [("totalCount", VNum 3)]]))) ""
           (Sample.filter_request Sample.flat_filter)
           (Fixture.answering (VArr [VObj [("totalCount", VNum 3)]]))
           _ _ [VObj [("totalCount", VNum 3)]] eq_refl eq_refl eq_refl).
Defined.

(** *** Every request is answered *)

Lemma throws_properly_bind {A B : Type} (m : io A) (f : A -> io B) :
  throws_properly m -> (forall a, throws_properly (f a)) -> throws_properly (bind m f).
Proof.
  unfold throws_properly. intros Hm Hf. rewrite bind_cases.
  destruct (fst m) as [a|err]; [exact (Hf a) | exact Hm].
Qed.

Lemma throws_properly_lift {A : Type} (c : completion A) :
  (forall err, c = Throw err -> err = TypeError) -> throws_properly (c, []).
Proof.
  unfold throws_properly. destruct c as [a|err]; cbn; [trivial|].
  intros H. now rewrite (H err eq_refl).
Qed.

Lemma throws_properly_ret {A : Type} (a : A) : throws_properly (ret a).
Proof. exact I. Qed.

Lemma throws_properly_emit (e : event) : throws_properly (emit e).
Proof. exact I. Qed.

Lemma throws_properly_executeQuery (getConnection : completion connection)
    (query : string) (binds : list value) :
  proper_driver getConnection -> throws_properly (executeQuery getConnection query binds).
Proof.
  intros Hd. unfold throws_properly.
  pose proof (executeQuery_cases getConnection query binds) as Hq.
  destruct getConnection as [connection|err]; destruct Hq as [-> _]; [|exact Hd].
  destruct (execute connection query binds) as [rows|err] eqn:He; [exact I|].
  exact (Hd query binds err He).
Qed.

Lemma member_throws (k : string) (v : value) (err : error) :
  Routes.member k v = Throw err -> err = TypeError.
Proof. unfold Routes.member. destruct (nullish v); [now intros [= <-] | discriminate]. Qed.

Lemma first_throws (v : value) (err : error) :
  Routes.first v = Throw err -> err = TypeError.
Proof.
  destruct v as [| |b|n|s|l|o]; cbn [Routes.first]; try discriminate;
    now intros [= <-].
Qed.

Lemma call_toString_throws (v : value) (err : error) :
  Routes.call_toString v = Throw err -> err = TypeError.
Proof.
  destruct v as [| |b|n|s|l|o]; cbn; try discriminate; try (now intros [= <-]).
  destruct (lookup "toString" o); try discriminate; now intros [= <-].
Qed.

Lemma iterate_throws (v : value) (err : error) :
  Routes.iterate v = Throw err -> err = TypeError.
Proof. destruct v; cbn; try discriminate; now intros [= <-]. Qed.

Lemma column_type_throws (column : value) (err : error) :
  Schema.column_type column = Throw err -> err = TypeError.
Proof.
  unfold Schema.column_type. destruct (or_else _ _); try discriminate; now intros [= <-].
Qed.

Lemma list_column_throws (fields : list (string * value)) (column : value) (err : error) :
  Schema.list_column fields column = Throw err -> err = TypeError.
Proof.
  unfold Schema.list_column. destruct (nullish column); [now intros [= <-]|].
  destruct (Schema.column_type column) eqn:Hc; [discriminate|].
  intros [= <-]. exact (column_type_throws _ _ Hc).
Qed.

Lemma for_columns_throws turn (columns : list value) (fields : list (string * value))
    (err : error) :
  (forall fields column err, turn fields column = Throw err -> err = TypeError) ->
  Schema.for_columns turn columns fields = Throw err -> err = TypeError.
Proof.
  intros Hturn. revert fields. induction columns as [|column rest IH]; intros fields;
    cbn [Schema.for_columns]; [discriminate|].
  destruct (turn fields column) eqn:Ht; [apply IH|].
  intros [= <-]. exact (Hturn _ _ _ Ht).
Qed.

Section Answered.
Context {P : Platform}.
Variable getConnection : completion connection.
Variable typeErrorText : string.
Variable DB_NAME : option string.
Variable isDate : value -> bool.
Variable toISOString : value -> completion value.

Hypothesis driver_proper : proper_driver getConnection.
Hypothesis dates_proper : forall date err, toISOString date = Throw err -> proper err.

Lemma handler_answers (attempt : io (Z * value)) (label : string) (status : Z)
    (body : value -> value) :
  throws_properly attempt ->
  exists answer,
    fst (try_catch attempt (Routes.caught typeErrorText label status body)) = Return answer.
Proof.
  unfold throws_properly. intros Ha. rewrite try_catch_cases.
  destruct (fst attempt) as [answer|err]; [eexists; reflexivity|].
  destruct (caught_answers typeErrorText label status body err) as [msg Hmsg];
    [|eexists; exact Hmsg].
  intros reason ->. exact Ha.
Qed.

Lemma run_throws_properly (logged : bool) (b : built) (rest : value -> io (Z * value)) :
  (forall result, throws_properly (rest result)) ->
  throws_properly (Routes.run getConnection logged b rest).
Proof.
  intros Hrest. unfold Routes.run. destruct b; try exact I.
  apply throws_properly_bind.
  - destruct logged; exact I.
  - intros _. apply throws_properly_bind; [|exact Hrest].
    now apply throws_properly_executeQuery.
Qed.

Lemma affected_throws_properly (success : string) (result : value) :
  throws_properly (Routes.affected success result).
Proof.
  unfold Routes.affected. apply throws_properly_bind.
  - apply throws_properly_lift, member_throws.
  - intros a. destruct (Routes.is_zero a); exact I.
Qed.

Lemma total_count_throws_properly (escapedTable : string) :
  throws_properly (Routes.total_count getConnection escapedTable).
Proof.
  unfold Routes.total_count. apply throws_properly_bind.
  - now apply throws_properly_executeQuery.
  - intros countResult. apply throws_properly_bind.
    + apply throws_properly_lift, first_throws.
    + intros row. apply throws_properly_lift, member_throws.
Qed.

Lemma format_each_throws_properly (format : nat -> value -> io value) (index : nat)
    (items : list value) :
  (forall index item, throws_properly (format index item)) ->
  throws_properly (Routes.format_each format index items).
Proof.
  intros Hf. revert index. induction items as [|item rest IH]; intros index; [exact I|].
  cbn [Routes.format_each]. apply throws_properly_bind; [apply Hf|].
  intros a. apply throws_properly_bind; [apply IH | intros; exact I].
Qed.

Lemma hostinger_format_throws_properly (index : nat) (item : value) :
  throws_properly (Routes.hostinger_format isDate toISOString index item).
Proof.
  unfold Routes.hostinger_format. apply throws_properly_bind.
  - destruct (truthy _); [|exact I].
    apply throws_properly_bind; [|intros; exact I].
    destruct (Routes.instanceof_Date isDate _); [|exact I].
    unfold throws_properly. cbn [fst].
    destruct (toISOString _) eqn:Hd; [exact I | exact (dates_proper _ _ Hd)].
  - intros a. apply throws_properly_bind; intros; exact I.
Qed.

Lemma server_format_throws_properly (index : nat) (item : value) :
  throws_properly (Routes.server_format isDate toISOString index item).
Proof.
  unfold Routes.server_format. destruct (Routes.instanceof_Date isDate _); [|exact I].
  apply throws_properly_bind; [|intros; exact I].
  unfold throws_properly. cbn [fst].
  destruct (toISOString _) eqn:Hd; [exact I | exact (dates_proper _ _ Hd)].
Qed.

Lemma list_each_throws_properly (tables schemas : list value) :
  throws_properly (Routes.list_each getConnection tables schemas).
Proof.
  revert schemas. induction tables as [|table rest IH]; intros schemas; [exact I|].
  cbn [Routes.list_each]. apply throws_properly_bind.
  - now apply throws_properly_executeQuery.
  - intros columnsResult. apply throws_properly_bind.
    + apply throws_properly_lift, iterate_throws.
    + intros columns. apply throws_properly_bind; [|intros; apply IH].
      apply throws_properly_lift. intros err.
      apply for_columns_throws. exact list_column_throws.
Qed.

Lemma table_names_throws (rows : list value) (err : error) :
  Routes.table_names DB_NAME rows = Throw err -> err = TypeError.
Proof.
  induction rows as [|row rest IH]; cbn [Routes.table_names]; [discriminate|].
  destruct (Routes.member _ row) eqn:Hm.
  - destruct (Routes.table_names DB_NAME rest); [discriminate|].
    intros [= <-]. now apply IH.
  - intros [= <-]. exact (member_throws _ _ _ Hm).
Qed.

(** X14.  When the driver never rejects with [null] or [undefined] (and
    neither does the date formatting), every handler answers every request:
    whatever the body and whatever the database does, exactly one status
    and one JSON body are sent; no failure escapes the handler. *)
Theorem every_request_is_answered (body : list (string * value)) (table id : string) :
  let answered (run : io (Z * value)) := exists answer, fst run = Return answer in
  answered (Routes.provision typeErrorText body)
  /\ answered (Routes.query getConnection typeErrorText body)
  /\ answered (Routes.update getConnection typeErrorText body)
  /\ answered (Routes.schemas_list getConnection typeErrorText DB_NAME body)
  /\ answered (Routes.items_find getConnection typeErrorText body)
  /\ answered (Routes.items_get getConnection typeErrorText table id)
  /\ answered (Routes.data_count getConnection typeErrorText body)
  /\ answered (Routes.data_insert getConnection typeErrorText body)
  /\ answered (Routes.hostinger_data_find getConnection typeErrorText isDate
                 toISOString body)
  /\ answered (Routes.server_data_find getConnection typeErrorText isDate
                 toISOString body)
  /\ answered (Routes.data_update getConnection typeErrorText body)
  /\ answered (Routes.data_remove getConnection typeErrorText body).
Proof.
  cbv zeta.
  unfold Routes.provision, Routes.query, Routes.update, Routes.schemas_list,
    Routes.items_find, Routes.items_get, Routes.data_count, Routes.data_insert,
    Routes.hostinger_data_find, Routes.server_data_find, Routes.data_update,
    Routes.data_remove.
  repeat split.
  - apply handler_answers. destruct (negb _); [exact I|].
    apply throws_properly_bind; intros; exact I.
  - apply handler_answers. unfold Routes.raw. destruct (negb _); [exact I|].
    apply throws_properly_bind.
    + unfold throws_properly, Raw.validateQuery. cbn [fst].
      destruct (negb _ || negb _); [reflexivity|].
      destruct (Raw.first_forbidden _ _); [reflexivity | exact I].
    + intros _. apply throws_properly_bind; [|intros; exact I].
      now apply throws_properly_executeQuery.
  - apply handler_answers. unfold Routes.raw. destruct (negb _); [exact I|].
    apply throws_properly_bind.
    + unfold throws_properly, Raw.validateQuery. cbn [fst].
      destruct (negb _ || negb _); [reflexivity|].
      destruct (Raw.first_forbidden _ _); [reflexivity | exact I].
    + intros _. apply throws_properly_bind; [|intros; exact I].
      now apply throws_properly_executeQuery.
  - apply handler_answers. apply throws_properly_bind.
    + now apply throws_properly_executeQuery.
    + intros tablesResult. destruct (negb _ || _); [exact I|].
      destruct tablesResult; try exact I.
      apply throws_properly_bind.
      * apply throws_properly_lift, table_names_throws.
      * intros tables. apply throws_properly_bind; [|intros; exact I].
        apply list_each_throws_properly.
  - apply handler_answers, run_throws_properly. intros; exact I.
  - apply handler_answers. apply throws_properly_bind.
    + now apply throws_properly_executeQuery.
    + intros result. destruct (negb _ || _); [exact I|].
      apply throws_properly_bind; [|intros; exact I].
      apply throws_properly_lift, first_throws.
  - apply handler_answers, run_throws_properly. intros result.
    apply throws_properly_bind; [apply throws_properly_lift, first_throws|].
    intros row. apply throws_properly_bind; [|intros; exact I].
    apply throws_properly_lift, member_throws.
  - apply handler_answers, run_throws_properly. intros result.
    apply throws_properly_bind; [apply throws_properly_lift, member_throws|].
    intros insertId. apply throws_properly_bind; [|intros; exact I].
    destruct (truthy _); [|exact I].
    apply throws_properly_lift, call_toString_throws.
  - apply handler_answers, run_throws_properly. intros items.
    apply throws_properly_bind; [exact I|]. intros _.
    destruct items; try (apply throws_properly_bind; intros; exact I).
    apply throws_properly_bind.
    + destruct (truthy _); [apply total_count_throws_properly | exact I].
    + intros totalCount. apply throws_properly_bind; [|intros; exact I].
      apply format_each_throws_properly, hostinger_format_throws_properly.
  - apply handler_answers, run_throws_properly. intros items.
    destruct items as [| | | | |[|row rows]|]; try exact I.
    apply throws_properly_bind.
    + destruct (truthy _); [apply total_count_throws_properly | exact I].
    + intros totalCount. apply throws_properly_bind; [|intros; exact I].
      apply format_each_throws_properly, server_format_throws_properly.
  - apply handler_answers, run_throws_properly, affected_throws_properly.
  - apply handler_answers, run_throws_properly, affected_throws_properly.
Qed.

End Answered.

Lemma every_request_is_answered_witness :
  proper_driver (Return (Fixture.failing Fixture.no_such_table))
  /\ (forall (date : value) err, @Throw value TypeError = Throw err -> proper err)
  /\ exists answer,
       fst (@Routes.data_remove mysql2 (Return (Fixture.failing Fixture.no_such_table))
              "" [("collectionName", VStr "t"); ("itemId", VNum 7)])
       = Return answer.
Proof.
  assert (Hd : proper_driver (Return (Fixture.failing Fixture.no_such_table))).
  { intros query binds err [= <-]. reflexivity. }
  assert (Hi : forall (date : value) err,
             @Throw value TypeError = Throw err -> proper err).
  { intros date err [= <-]. exact I. }
  split; [exact Hd|]. split; [exact Hi|].
  destruct (@every_request_is_answered mysql2
              (Return (Fixture.failing Fixture.no_such_table)) "" None
              (fun _ => false) (fun _ => Throw TypeError) Hd Hi
              [("collectionName", VStr "t"); ("itemId", VNum 7)] "t" "7")
    as (_ & _ & _ & _ & _ & _ & _ & _ & _ & _ & _ & H).
  exact H.
Defined.

(** *** The schema mapper, beyond the classification *)

Lemma lower_upper (c : ascii) : lower (Raw.upper c) = lower c.
Proof. destruct c as [[] [] [] [] [] [] [] []]; reflexivity. Qed.

Lemma lower_lower (c : ascii) : lower (lower c) = lower c.
Proof. destruct c as [[] [] [] [] [] [] [] []]; reflexivity. Qed.

Lemma toLowerCase_toUpperCase (s : string) :
  toLowerCase (Raw.toUpperCase s) = toLowerCase s.
Proof. induction s as [|c s IH]; cbn; [reflexivity | now rewrite lower_upper, IH]. Qed.

Lemma toLowerCase_idempotent (s : string) : toLowerCase (toLowerCase s) = toLowerCase s.
Proof. induction s as [|c s IH]; cbn; [reflexivity | now rewrite lower_lower, IH]. Qed.

(** X15.  The type classification ignores letter case: a native type
    written in capitals, or already lowercased, is classified as the type
    as given. *)
Theorem classification_ignores_case (mysqlType : string) :
  Schema.mapMySQLTypeToWixType (Raw.toUpperCase mysqlType)
  = Schema.mapMySQLTypeToWixType mysqlType
  /\ Schema.mapMySQLTypeToWixType (toLowerCase mysqlType)
     = Schema.mapMySQLTypeToWixType mysqlType.
Proof.
  unfold Schema.mapMySQLTypeToWixType.
  now rewrite toLowerCase_toUpperCase, toLowerCase_idempotent.
Qed.

Lemma has_keys (k : string) (o : list (string * value)) :
  Schema.has k o = true <-> In k (map fst o).
Proof.
  unfold Schema.has. rewrite existsb_exists. split.
  - intros [[k' v'] [Hin Heq]]. apply String.eqb_eq in Heq. subst k'.
    now apply (in_map fst) in Hin.
  - intros Hin. apply in_map_iff in Hin. destruct Hin as [[k' v'] [Heq Hin]].
    cbn in Heq. subst k'. exists (k, v'). split; [exact Hin | apply String.eqb_refl].
Qed.

Lemma replace_keys (k : string) (v : value) (o : list (string * value)) :
  map fst (Schema.replace k v o) = map fst o.
Proof.
  induction o as [|[k' v'] o IH]; cbn [Schema.replace map fst]; [reflexivity|].
  destruct (String.eqb_spec k' k) as [->|_]; cbn [map fst]; [reflexivity | now rewrite IH].
Qed.

Lemma insert_keys (n : N) (k : string) (v : value) (o : list (string * value))
    (key : string) :
  In key (map fst (Schema.insert n k v o)) <-> key = k \/ In key (map fst o).
Proof.
  induction o as [|[k' v'] o IH]; cbn [Schema.insert map fst In].
  - intuition congruence.
  - destruct (Schema.index k') as [m|]; [destruct (m <? n)%N|]; cbn [map fst In];
      rewrite ?IH; intuition congruence.
Qed.

Lemma insert_NoDup (n : N) (k : string) (v : value) (o : list (string * value)) :
  ~ In k (map fst o) -> NoDup (map fst o) -> NoDup (map fst (Schema.insert n k v o)).
Proof.
  induction o as [|[k' v'] o IH]; cbn [Schema.insert map fst]; intros Hk Hnd.
  - constructor; [intros [] | constructor].
  - assert (Hfront : NoDup (map fst ((k, v) :: (k', v') :: o)))
      by (cbn [map fst]; constructor; assumption).
    destruct (Schema.index k') as [m|]; [destruct (m <? n)%N|]; try exact Hfront.
    cbn [map fst]. apply NoDup_cons_iff in Hnd. destruct Hnd as [Hnotin Hnd].
    constructor.
    + rewrite insert_keys. intros [-> | Hin]; [apply Hk; now left | contradiction].
    + apply IH; [|exact Hnd]. intros Hin. apply Hk. now right.
Qed.

Lemma set_keys (k : string) (v : value) (o : list (string * value)) (key : string) :
  In key (map fst (Schema.set k v o)) <-> key = k \/ In key (map fst o).
Proof.
  unfold Schema.set. destruct (Schema.has k o) eqn:Hhas.
  - rewrite replace_keys. apply has_keys in Hhas. intuition congruence.
  - destruct (Schema.index k) as [n|]; [apply insert_keys|].
    rewrite map_app, in_app_iff. cbn. intuition congruence.
Qed.

Lemma set_NoDup (k : string) (v : value) (o : list (string * value)) :
  NoDup (map fst o) -> NoDup (map fst (Schema.set k v o)).
Proof.
  intros Hnd. unfold Schema.set. destruct (Schema.has k o) eqn:Hhas.
  - now rewrite replace_keys.
  - assert (Hk : ~ In k (map fst o)).
    { intros Hin. apply has_keys in Hin. congruence. }
    destruct (Schema.index k) as [n|]; [now apply insert_NoDup|].
    rewrite map_app. cbn [map fst]. apply NoDup_app; [exact Hnd | repeat constructor; intros [] |].
    intros key Hin [<- | []]. contradiction.
Qed.

Lemma lookup_replace (k key : string) (v : value) (o : list (string * value)) :
  In k (map fst o) ->
  lookup key (Schema.replace k v o) = if k =? key then v else lookup key o.
Proof.
  induction o as [|[k' v'] o IH]; cbn [Schema.replace lookup map fst In]; [contradiction|].
  intros Hin. destruct (String.eqb_spec k' k) as [->|Hneq]; cbn [lookup].
  - now destruct (k =? key).
  - destruct Hin as [Heq | Hin]; [congruence|]. rewrite (IH Hin).
    destruct (String.eqb_spec k' key) as [->|_]; [|reflexivity].
    apply String.eqb_neq in Hneq. rewrite String.eqb_sym in Hneq. now rewrite Hneq.
Qed.

Lemma lookup_insert (n : N) (k key : string) (v : value) (o : list (string * value)) :
  ~ In k (map fst o) ->
  lookup key (Schema.insert n k v o) = if k =? key then v else lookup key o.
Proof.
  induction o as [|[k' v'] o IH]; cbn [Schema.insert map fst In]; intros Hk;
    [reflexivity|].
  destruct (Schema.index k') as [m|]; [destruct (m <? n)%N|]; try reflexivity.
  cbn [lookup]. rewrite IH by tauto.
  destruct (String.eqb_spec k' key) as [->|_]; [|reflexivity].
  destruct (String.eqb_spec k key) as [->|_]; [|reflexivity]. tauto.
Qed.

Lemma lookup_last (k key : string) (v : value) (o : list (string * value)) :
  ~ In k (map fst o) ->
  lookup key (o ++ [(k, v)]) = if k =? key then v else lookup key o.
Proof.
  induction o as [|[k' v'] o IH]; cbn [app lookup map fst In]; intros Hk;
    [reflexivity|].
  rewrite IH by tauto.
  destruct (String.eqb_spec k' key) as [->|_]; [|reflexivity].
  destruct (String.eqb_spec k key) as [->|_]; [|reflexivity]. tauto.
Qed.

Lemma lookup_set (k key : string) (v : value) (o : list (string * value)) :
  lookup key (Schema.set k v o) = if k =? key then v else lookup key o.
Proof.
  unfold Schema.set. destruct (Schema.has k o) eqn:Hhas.
  - apply lookup_replace. now apply has_keys.
  - assert (Hk : ~ In k (map fst o)).
    { intros Hin. apply has_keys in Hin. congruence. }
    destruct (Schema.index k) as [n|]; [now apply lookup_insert | now apply lookup_last].
Qed.

(** A column loop that writes one named entry per turn. *)
Lemma for_columns_keys turn (name : value -> string) (columns : list value)
    (fields fields' : list (string * value)) :
  (forall fields column fields',
      turn fields column = Return fields' ->
      exists entry, fields' = Schema.set (name column) entry fields) ->
  Schema.for_columns turn columns fields = Return fields' ->
  (NoDup (map fst fields) -> NoDup (map fst fields'))
  /\ forall key,
       In key (map fst fields')
       <-> In key (map fst fields) \/ exists column, In column columns /\ key = name column.
Proof.
  intros Hturn. revert fields. induction columns as [|column rest IH]; intros fields;
    cbn [Schema.for_columns].
  - intros [= <-]. split; [auto|]. intros key. split; [auto|].
    intros [H | (column & [] & _)]. exact H.
  - destruct (turn fields column) as [fields1|err] eqn:Ht; [|discriminate].
    intros Hrest. destruct (Hturn _ _ _ Ht) as [entry ->].
    destruct (IH _ Hrest) as [Hnd Hkeys]. split.
    + intros H. apply Hnd, set_NoDup, H.
    + intros key. rewrite Hkeys, set_keys. split.
      * intros [[-> | H] | (c & Hc & ->)]; [right | left | right]; eauto.
        -- exists column. split; [now left | reflexivity].
        -- exists c. split; [now right | reflexivity].
      * intros [H | (c & [<- | Hc] & ->)]; [left; right | left; left | right]; eauto.
Qed.

Lemma find_column_sets (fields : list (string * value)) (column : value)
    (fields' : list (string * value)) :
  Schema.find_column fields column = Return fields' ->
  exists entry, fields' = Schema.set (find_name column) entry fields.
Proof.
  unfold Schema.find_column, find_name. destruct (nullish column); [discriminate|].
  destruct (Schema.column_type column); [|discriminate]. intros [= <-]. eauto.
Qed.

Lemma list_column_sets (fields : list (string * value)) (column : value)
    (fields' : list (string * value)) :
  Schema.list_column fields column = Return fields' ->
  exists entry, fields' = Schema.set (list_name column) entry fields.
Proof.
  unfold Schema.list_column, list_name, find_name. destruct (nullish column); [discriminate|].
  destruct (Schema.column_type column); [|discriminate]. intros [= <-].
  destruct (is_str "PRI" _); eauto.
Qed.

(** X16.  The fields object schemas/find builds for a table holds [_id]
    and [_owner] whatever the columns are, and beyond them exactly the
    names of the columns, each name once.  (No column is named
    [__proto__]: an assignment to that name is no property.) *)
Theorem find_fields_names (columns : list value) (fields : list (string * value)) :
  (forall column, In column columns -> find_name column <> "__proto__") ->
  Schema.for_columns Schema.find_column columns Schema.identifier_fields = Return fields ->
  NoDup (map fst fields)
  /\ forall key,
       In key (map fst fields)
       <-> key = "_id" \/ key = "_owner"
           \/ exists column, In column columns /\ key = find_name column.
Proof.
  intros _ H. destruct (for_columns_keys _ find_name _ _ _ find_column_sets H) as [Hnd Hk].
  split.
  - apply Hnd. repeat constructor; cbn; intuition discriminate.
  - intros key. rewrite Hk. cbn. intuition.
Qed.

(** X17.  The fields object schemas/list builds for a table holds exactly
    the published names of its columns, each name once: a primary-key
    column is published as [_id], any other column under its own name.  So
    the columns of a composite primary key share the one field [_id].
    (No column is published as [__proto__]: an assignment to that name is
    no property.) *)
Theorem list_fields_names (columns : list value) (fields : list (string * value)) :
  (forall column, In column columns -> list_name column <> "__proto__") ->
  Schema.for_columns Schema.list_column columns [] = Return fields ->
  NoDup (map fst fields)
  /\ (forall key,
        In key (map fst fields)
        <-> exists column, In column columns /\ key = list_name column)
  /\ (List.length fields <= List.length columns)%nat.
Proof.
  intros _ H. destruct (for_columns_keys _ list_name _ _ _ list_column_sets H) as [Hnd Hk].
  assert (Hnd' : NoDup (map fst fields)) by (apply Hnd; constructor).
  split; [exact Hnd'|]. split.
  - intros key. rewrite Hk. cbn. intuition.
  - rewrite <- (length_map fst fields), <- (length_map list_name columns).
    apply NoDup_incl_length; [exact Hnd'|].
    intros key Hin. apply Hk in Hin. destruct Hin as [[] | (column & Hc & ->)].
    now apply in_map.
Qed.

Lemma list_column_entry (fields : list (string * value)) (column : value)
    (fields' : list (string * value)) :
  Schema.list_column fields column = Return fields' ->
  exists entry,
    fields' = Schema.set (list_name column) entry fields
    /\ prop "displayName" entry = or_else (prop "Field" column) (VStr "")
    /\ prop "unique" entry
       = VBool (is_str "PRI" (prop "Key" column) || is_str "UNI" (prop "Key" column)).
Proof.
  unfold Schema.list_column, list_name, find_name. destruct (nullish column); [discriminate|].
  destruct (Schema.column_type column); [|discriminate]. intros [= <-].
  destruct (is_str "PRI" _); eexists; repeat split.
Qed.

(** X18.  When several columns are published under one name, the later
    column wins: the entry schemas/list leaves under a name describes the
    last column with that published name (its native name is the
    [displayName]); the earlier ones are not in the schema at all.  (The
    name is not [__proto__]: an assignment to that name is no property.) *)
Theorem list_fields_last_wins (before after : list value) (column : value)
    (fields : list (string * value)) :
  list_name column <> "__proto__" ->
  Schema.for_columns Schema.list_column (before ++ column :: after) [] = Return fields ->
  (forall later, In later after -> list_name later <> list_name column) ->
  prop "displayName" (lookup (list_name column) fields)
  = or_else (prop "Field" column) (VStr "")
  /\ prop "unique" (lookup (list_name column) fields)
     = VBool (is_str "PRI" (prop "Key" column) || is_str "UNI" (prop "Key" column)).
Proof.
  intros _. generalize (@nil (string * value)) as fields0.
  induction before as [|c before IH]; intros fields0; cbn [app Schema.for_columns].
  - destruct (Schema.list_column fields0 column) as [fields1|] eqn:Hc; [|discriminate].
    destruct (list_column_entry _ _ _ Hc) as (entry & -> & Hd & Hu).
    assert (Hkeep : forall rest fields2,
               Schema.for_columns Schema.list_column rest fields2 = Return fields ->
               (forall later, In later rest -> list_name later <> list_name column) ->
               lookup (list_name column) fields = lookup (list_name column) fields2).
    { induction rest as [|c rest IHr]; intros fields2; cbn [Schema.for_columns].
      - now intros [= <-].
      - destruct (Schema.list_column fields2 c) as [fields3|] eqn:H3; [|discriminate].
        intros Hrest Hlater. rewrite (IHr _ Hrest) by (intros; apply Hlater; now right).
        destruct (list_column_sets _ _ _ H3) as [e ->]. rewrite lookup_set.
        destruct (String.eqb_spec (list_name c) (list_name column)) as [Heq|_];
          [|reflexivity].
        exfalso. apply (Hlater c); [now left | exact Heq]. }
    intros Hrest Hlater. rewrite (Hkeep _ _ Hrest Hlater), lookup_set, String.eqb_refl.
    now split.
  - destruct (Schema.list_column fields0 c) as [fields1|]; [|discriminate]. apply IH.
Qed.

Lemma list_fields_names_witness :
  exists fields,
    Schema.for_columns Schema.list_column Fixture.order_lines [] = Return fields
    /\ map fst fields = ["_id"; "note"]
    /\ NoDup (map fst fields).
Proof.
  eexists. split; [reflexivity|]. split; [reflexivity|].
  refine (proj1 (list_fields_names Fixture.order_lines _ _ eq_refl)).
  intros column [<- | [<- | [<- | []]]]; discriminate.
Defined.

Lemma find_fields_names_witness :
  exists fields,
    Schema.for_columns Schema.find_column Fixture.order_lines Schema.identifier_fields
    = Return fields
    /\ map fst fields = ["_id"; "_owner"; "order_id"; "line_no"; "note"]
    /\ NoDup (map fst fields).
Proof.
  eexists. split; [reflexivity|]. split; [reflexivity|].
  refine (proj1 (find_fields_names Fixture.order_lines _ _ eq_refl)).
  intros column [<- | [<- | [<- | []]]]; discriminate.
Defined.

Lemma list_fields_last_wins_witness :
  exists fields,
    Schema.for_columns Schema.list_column Fixture.order_lines [] = Return fields
    /\ prop "displayName" (lookup "_id" fields) = VStr "line_no".
Proof.
  eexists. split; [reflexivity|].
  refine (proj1 (list_fields_last_wins
                   [nth 0 Fixture.order_lines VNull]
                   [nth 2 Fixture.order_lines VNull]
                   (nth 1 Fixture.order_lines VNull) _ _ eq_refl _)).
  - discriminate.
  - intros later [<- | []]. cbn. discriminate.
Defined.

(** *** schemas/list, from the request to the response *)

Section Listing.
Context {P : Platform}.
Variable getConnection : completion connection.
Variable typeErrorText : string.
Variable DB_NAME : option string.

Lemma caught_status (label : string) (status : Z) (body : value -> value)
    (err : error) (answer : Z * value) :
  fst (Routes.caught typeErrorText label status body err) = Return answer ->
  fst answer = status.
Proof.
  unfold Routes.caught. destruct (Routes.message typeErrorText err); cbn; [|discriminate].
  now intros [= <-].
Qed.

Lemma handler_other_status (attempt : io (Z * value)) (label : string) (status : Z)
    (body : value -> value) (answer : Z * value) :
  fst (try_catch attempt (Routes.caught typeErrorText label status body)) = Return answer ->
  fst answer <> status ->
  fst attempt = Return answer.
Proof.
  rewrite try_catch_cases. destruct (fst attempt) as [a|err]; cbn [fst]; [auto|].
  intros H Hneq. apply caught_status in H. contradiction.
Qed.

Lemma executeQuery_returns (query : string) (binds : list value) (result : value) :
  fst (executeQuery getConnection query binds) = Return result ->
  executed (snd (executeQuery getConnection query binds)) = [(query, binds)]
  /\ exists connection rows,
       getConnection = Return connection
       /\ execute connection query binds = Return rows
       /\ result = or_else rows (VArr []).
Proof.
  pose proof (executeQuery_cases getConnection query binds) as H.
  destruct getConnection as [connection|err]; destruct H as [-> Hex]; [|discriminate].
  destruct (execute connection query binds) as [rows|] eqn:Hq; [|discriminate].
  intros [= <-]. eauto 6.
Qed.

Lemma table_names_spec (rows tables : list value) :
  Routes.table_names DB_NAME rows = Return tables ->
  tables = map (prop (Routes.tables_key DB_NAME)) rows.
Proof.
  revert tables. induction rows as [|row rows IH]; intros tables; cbn [Routes.table_names map].
  - now intros [= <-].
  - unfold Routes.member. destruct (nullish row); [discriminate|].
    destruct (Routes.table_names DB_NAME rows); [|discriminate].
    intros [= <-]. now rewrite (IH _ eq_refl).
Qed.

Lemma list_each_spec (tables acc schemas : list value) :
  fst (Routes.list_each getConnection tables acc) = Return schemas ->
  exists new,
    schemas = (acc ++ new)%list
    /\ map (prop "id") new = tables
    /\ executed (snd (Routes.list_each getConnection tables acc))
       = map (fun table => ("DESCRIBE " ++ escapeId table, @nil value)) tables.
Proof.
  revert acc. induction tables as [|table rest IH]; intros acc; cbn [Routes.list_each].
  - intros [= <-]. exists []. now rewrite app_nil_r.
  - rewrite bind_cases.
    destruct (fst (executeQuery getConnection ("DESCRIBE " ++ escapeId table) []))
      as [columnsResult|] eqn:Hq; [|discriminate].
    destruct (executeQuery_returns _ _ _ Hq) as [Hex _].
    rewrite bind_cases. cbn [fst snd].
    destruct (Routes.iterate columnsResult) as [columns|]; [|discriminate].
    rewrite bind_cases. cbn [fst snd app].
    destruct (Schema.for_columns Schema.list_column columns []) as [fields|];
      [|discriminate].
    cbn [fst snd app]. intros Hrest. destruct (IH _ Hrest) as (new & -> & Hid & Hexr).
    exists (Schema.schema table fields :: new). split; [now rewrite <- app_assoc|].
    split; [cbn [map]; now rewrite Hid|].
    rewrite executed_app, Hex, Hexr. reflexivity.
Qed.

(** X19.  An answer 200 of schemas/list holds one schema per row of SHOW
    TABLES, in that order, each with the table name of its row as [id], and
    the request ran SHOW TABLES and then one DESCRIBE per table, all
    without parameters. *)
Theorem schemas_list_one_schema_per_table (body : list (string * value))
    (reply : value) :
  fst (Routes.schemas_list getConnection typeErrorText DB_NAME body)
  = Return (200%Z, reply) ->
  exists connection rows schemas,
    getConnection = Return connection
    /\ execute connection "SHOW TABLES" [] = Return (VArr rows)
    /\ reply = VObj [("schemas", VArr schemas)]
    /\ map (prop "id") schemas = map (prop (Routes.tables_key DB_NAME)) rows
    /\ executed (snd (Routes.schemas_list getConnection typeErrorText DB_NAME body))
       = ("SHOW TABLES", [])
         :: map (fun schema => ("DESCRIBE " ++ escapeId (prop "id" schema), [])) schemas.
Proof.
  unfold Routes.schemas_list. rewrite handler_executed.
  intros Hattempt. apply handler_other_status in Hattempt; [|discriminate].
  revert Hattempt. rewrite bind_cases.
  destruct (fst (executeQuery getConnection "SHOW TABLES" [])) as [tablesResult|] eqn:Hq;
    [|discriminate].
  destruct (executeQuery_returns _ _ _ Hq) as (Hex & connection & result & Hc & Hrun & ->).
  cbn [fst snd].
  destruct (negb _ || _) eqn:Hlen; [discriminate|].
  assert (Hres : or_else result (VArr []) = result).
  { unfold or_else in *. destruct (truthy result); [reflexivity | discriminate]. }
  rewrite Hres in *. clear Hres Hlen.
  destruct result as [| | | | |rows|]; try discriminate. rewrite !bind_cases. cbn [fst snd].
  destruct (Routes.table_names DB_NAME rows) as [tables|] eqn:Hnames; cbn [fst snd app];
    [|discriminate].
  rewrite bind_cases.
  destruct (fst (Routes.list_each getConnection tables [])) as [schemas|] eqn:Heach;
    cbn [fst snd app]; [|discriminate].
  destruct (list_each_spec _ _ _ Heach) as (new & -> & Hid & Hexe).
  cbn [fst snd app ret]. intros [= <-].
  exists connection, rows, new. split; [exact Hc|]. split; [exact Hrun|].
  split; [reflexivity|]. split; [rewrite Hid; now apply table_names_spec|].
  rewrite executed_app, Hex, executed_app, Hexe, app_nil_r. cbn [app].
  f_equal. rewrite <- Hid at 1. now rewrite map_map.
Qed.

(** X20.  With no table, schemas/list answers 404 after the one SHOW
    TABLES: so does an empty result, and so does a falsy one, which
    [executeQuery] has replaced by the empty array. *)
Theorem schemas_list_no_table (body : list (string * value)) (connection : connection)
    (rows : value) :
  getConnection = Return connection ->
  execute connection "SHOW TABLES" [] = Return rows ->
  rows = VArr [] \/ truthy rows = false ->
  fst (Routes.schemas_list getConnection typeErrorText DB_NAME body)
  = Return (404%Z, error_body "Nenhuma tabela encontrada no banco de dados")
  /\ executed (snd (Routes.schemas_list getConnection typeErrorText DB_NAME body))
     = [("SHOW TABLES", [])].
Proof.
  intros Hc Hrun Hrows. unfold Routes.schemas_list.
  rewrite handler_executed, try_catch_cases, bind_cases.
  pose proof (executeQuery_cases getConnection "SHOW TABLES" []) as Hq.
  rewrite Hc in Hq. rewrite <- Hc in Hq. destruct Hq as [Hfst Hex].
  rewrite Hrun in Hfst. rewrite Hfst.
  assert (Hempty : or_else rows (VArr []) = VArr []).
  { destruct Hrows as [-> | Hf]; [reflexivity | unfold or_else; now rewrite Hf]. }
  rewrite Hempty. cbn [truthy negb orb prop String.eqb Ascii.eqb Bool.eqb List.length
                       Z.of_nat Routes.is_zero Z.eqb ret fst snd].
  split; [reflexivity|]. now rewrite executed_app, Hex.
Qed.

End Listing.

Lemma schemas_list_one_schema_per_table_witness :
  exists schemas,
    fst (@Routes.schemas_list mysql2 (Return Fixture.shop) "" (Some "shop") [])
    = Return (200%Z, VObj [("schemas", VArr schemas)])
    /\ map (prop "id") schemas = [VStr "users"; VStr "order_lines"].
Proof.
  destruct (@schemas_list_one_schema_per_table mysql2 (Return Fixture.shop) ""
              (Some "shop") [] _ eq_refl)
    as (connection & rows & schemas & Hc & Hrun & Hreply & Hid & _).
  exists schemas. split; [now rewrite <- Hreply|].
  injection Hc as <-. injection Hrun as <-. exact Hid.
Defined.

Lemma schemas_list_no_table_witness :
  fst (@Routes.schemas_list mysql2 (Return (Fixture.answering VNull)) "" None [])
  = Return (404%Z, error_body "Nenhuma tabela encontrada no banco de dados").
Proof.
  exact (proj1 (@schemas_list_no_table mysql2 (Return (Fixture.answering VNull)) ""
                  None [] _ VNull eq_refl eq_refl (or_intror eq_refl))).
Defined.

(** *** data/find, from the request to the response *)

Section Finding.
Context {P : Platform}.
Variable getConnection : completion connection.
Variable typeErrorText : string.
Variable isDate : value -> bool.
Variable toISOString : value -> completion value.

Lemma run_trace (logged : bool) (sql : string) (params : list value)
    (rest : value -> io (Z * value)) :
  executed (snd (Routes.run getConnection logged (Statement sql params) rest))
  = (executed (snd (executeQuery getConnection sql params))
     ++ match fst (executeQuery getConnection sql params) with
        | Return result => executed (snd (rest result))
        | Throw _ => []
        end)%list.
Proof.
  unfold Routes.run.
  destruct (executeQuery getConnection sql params) as [[result|err] trace];
    destruct logged; cbn [bind emit ret fst snd app executed];
    try (now rewrite app_nil_r);
    destruct (rest result) as [r t']; cbn [fst snd executed]; now rewrite executed_app.
Qed.

Lemma format_each_executed (format : nat -> value -> io value) (index : nat)
    (items : list value) :
  (forall index item, executed (snd (format index item)) = []) ->
  executed (snd (Routes.format_each format index items)) = [].
Proof.
  intros Hf. revert index. induction items as [|item rest IH]; intros index;
    cbn [Routes.format_each]; [reflexivity|].
  rewrite bind_cases. pose proof (Hf index item) as H1.
  destruct (fst (format index item)); cbn [snd]; [|exact H1].
  rewrite executed_app, H1. cbn [app]. rewrite bind_cases. pose proof (IH (S index)) as H2.
  destruct (fst (Routes.format_each format (S index) rest)); cbn [snd]; [|exact H2].
  now rewrite executed_app, H2.
Qed.

Lemma hostinger_format_executed (index : nat) (item : value) :
  executed (snd (Routes.hostinger_format isDate toISOString index item)) = [].
Proof.
  unfold Routes.hostinger_format.
  destruct (truthy _); [|reflexivity].
  destruct (Routes.instanceof_Date isDate _); [destruct (toISOString _)|]; reflexivity.
Qed.

Lemma server_format_executed (index : nat) (item : value) :
  executed (snd (Routes.server_format isDate toISOString index item)) = [].
Proof.
  unfold Routes.server_format.
  destruct (Routes.instanceof_Date isDate _); [destruct (toISOString _)|]; reflexivity.
Qed.

Lemma total_count_executed (escapedTable : string) :
  executed (snd (Routes.total_count getConnection escapedTable)) = []
  \/ executed (snd (Routes.total_count getConnection escapedTable))
     = [("SELECT COUNT(*) AS totalCount FROM " ++ escapedTable, [])].
Proof.
  unfold Routes.total_count. rewrite bind_cases.
  destruct (executeQuery_executed_incl getConnection
              ("SELECT COUNT(*) AS totalCount FROM " ++ escapedTable) []) as [H | H];
    [left | right];
    (destruct (fst (executeQuery _ _ _)) as [countResult|]; cbn [snd]; [|exact H];
     rewrite executed_app, H;
     destruct (Routes.first countResult) as [row|]; cbn [bind fst snd app]; [|reflexivity];
     destruct (Routes.member "totalCount" row); reflexivity).
Qed.

Lemma counted_executed (format : nat -> value -> io value) (returnTotalCount : value)
    (escapedTable : string) (rows : list value) :
  (forall index item, executed (snd (format index item)) = []) ->
  let rest :=
    (totalCount <- (if truthy returnTotalCount
                    then Routes.total_count getConnection escapedTable
                    else ret VNull) ;;
     formattedItems <- Routes.format_each format 0 rows ;;
     ret (200%Z, Routes.find_response returnTotalCount totalCount formattedItems))%io in
  executed (snd rest) = []
  \/ (truthy returnTotalCount = true
      /\ executed (snd rest)
         = [("SELECT COUNT(*) AS totalCount FROM " ++ escapedTable, [])]).
Proof.
  intros Hf. cbv zeta. rewrite bind_cases.
  assert (Htail : forall totalCount,
             executed
               (snd (formattedItems <- Routes.format_each format 0 rows ;;
                     ret (200%Z, Routes.find_response returnTotalCount totalCount
                                   formattedItems))%io) = []).
  { intros totalCount. rewrite bind_cases.
    pose proof (format_each_executed format 0 rows Hf) as H.
    destruct (fst (Routes.format_each format 0 rows)); cbn [snd ret]; [|exact H].
    now rewrite executed_app, H. }
  destruct (truthy returnTotalCount).
  - destruct (total_count_executed escapedTable) as [H | H]; [left | right; split; [reflexivity|]];
      (destruct (fst (Routes.total_count _ _)); cbn [snd]; [|exact H];
       now rewrite executed_app, H, Htail, app_nil_r).
  - left. cbn [ret fst snd app]. apply Htail.
Qed.

(** X21.  The total count of data/find counts the whole table, not the
    filtered rows: whatever the filter of the request, a data/find of
    either server executes nothing, or its SELECT alone, or its SELECT
    followed, for a truthy [returnTotalCount], by the count statement on
    the bare table, which has no WHERE clause and no parameter. *)
Theorem data_find_counts_whole_table (body : list (string * value)) :
  let count :=
    ("SELECT COUNT(*) AS totalCount FROM " ++ escapeId (lookup "collectionName" body),
     @nil value) in
  let asked (b : built) (run : io (Z * value)) :=
    executed (snd run) = []
    \/ exists sql params,
         b = Statement sql params
         /\ (executed (snd run) = [(sql, params)]
             \/ (truthy (lookup "returnTotalCount" body) = true
                 /\ executed (snd run) = [(sql, params); count])) in
  asked (Hostinger.data_find body)
        (Routes.hostinger_data_find getConnection typeErrorText isDate toISOString body)
  /\ asked (Server.data_find body)
           (Routes.server_data_find getConnection typeErrorText isDate toISOString body).
Proof.
  cbv zeta. unfold Routes.hostinger_data_find, Routes.server_data_find.
  rewrite !handler_executed. split.
  - destruct (Hostinger.data_find body) as [status reply|sql params|];
      [now left | | now left].
    rewrite run_trace.
    destruct (executeQuery_executed_incl getConnection sql params) as [H | H];
      rewrite H; cbn [app].
    + pose proof (executeQuery_cases getConnection sql params) as Hq.
      destruct getConnection; destruct Hq as [Hfst Hex]; [rewrite Hex in H; discriminate|].
      rewrite Hfst. now left.
    + right. exists sql, params. split; [reflexivity|].
      destruct (fst (executeQuery getConnection sql params)) as [items|]; [|now left].
      destruct items as [| | | | |rows|]; try (now left).
      rewrite bind_cases. cbn [emit fst snd app executed].
      pose proof (counted_executed (Routes.hostinger_format isDate toISOString)
                    (lookup "returnTotalCount" body)
                    (escapeId (lookup "collectionName" body)) rows
                    hostinger_format_executed) as Hrest.
      cbv zeta in Hrest. destruct Hrest as [-> | [Ht ->]]; [now left | right; now split].
  - destruct (Server.data_find body) as [status reply|sql params|];
      [now left | | now left].
    rewrite run_trace.
    destruct (executeQuery_executed_incl getConnection sql params) as [H | H];
      rewrite H; cbn [app].
    + pose proof (executeQuery_cases getConnection sql params) as Hq.
      destruct getConnection; destruct Hq as [Hfst Hex]; [rewrite Hex in H; discriminate|].
      rewrite Hfst. now left.
    + right. exists sql, params. split; [reflexivity|].
      destruct (fst (executeQuery getConnection sql params)) as [items|]; [|now left].
      destruct items as [| | | | |[|row rows]|]; try (now left).
      pose proof (counted_executed (Routes.server_format isDate toISOString)
                    (lookup "returnTotalCount" body)
                    (escapeId (lookup "collectionName" body)) (row :: rows)
                    server_format_executed) as Hrest.
      cbv zeta in Hrest. destruct Hrest as [-> | [Ht ->]]; [now left | right; now split].
Qed.

(** X22.  In the server next to queryExecutor.js an empty result ends
    data/find at once: when the SELECT yields no row (or no array), the
    answer is [200 {items: []}], without [totalCount] even if
    [returnTotalCount] was asked, and no count statement is run. *)
Theorem server_data_find_empty (body : list (string * value)) (connection : connection)
    (sql : string) (params : list value) (rows : value) :
  getConnection = Return connection ->
  Server.data_find body = Statement sql params ->
  execute connection sql params = Return rows ->
  rows = VArr [] \/ isArray rows = false ->
  fst (Routes.server_data_find getConnection typeErrorText isDate toISOString body)
  = Return (200%Z, VObj [("items", VArr [])])
  /\ executed (snd (Routes.server_data_find getConnection typeErrorText isDate
                      toISOString body))
     = [(sql, params)].
Proof.
  intros Hc Hb Hrun Hrows. unfold Routes.server_data_find.
  rewrite handler_executed, try_catch_cases, Hb, run_trace.
  rewrite (run_outcome getConnection _ _ _ _ _ Hc), Hrun.
  pose proof (executeQuery_cases getConnection sql params) as Hq.
  rewrite Hc in Hq. rewrite <- Hc in Hq. destruct Hq as [Hfst Hex].
  rewrite Hex, Hfst, Hrun.
  assert (Hnone : match or_else rows (VArr []) with
                  | VArr (_ :: _) => False
                  | _ => True
                  end).
  { destruct Hrows as [-> | Hn]; [exact I|].
    unfold or_else. destruct (truthy rows); [|exact I].
    destruct rows; try exact I. discriminate. }
  destruct (or_else rows (VArr [])) as [| | | | |[|row rest]|]; try contradiction;
    split; reflexivity.
Qed.

(** X23.  A [sort] that is a non-empty string, or an array holding a
    [null], makes data/find fail before any statement runs: the server of
    WIX - HOSTINGER - 1.0 answers 500 with the fixed error text, and the
    other server answers 400 (when it refuses the filter first) or 500 with
    the TypeError's message as [details]. *)
Theorem data_find_malformed_sort (body : list (string * value)) :
  truthy (lookup "collectionName" body) = true ->
  (exists s, lookup "sort" body = VStr s /\ s <> "")
  \/ (exists entries, lookup "sort" body = VArr entries /\ In VNull entries) ->
  let hostinger :=
    Routes.hostinger_data_find getConnection typeErrorText isDate toISOString body in
  let server :=
    Routes.server_data_find getConnection typeErrorText isDate toISOString body in
  fst hostinger = Return (500%Z, error_body "Erro interno do servidor")
  /\ executed (snd hostinger) = []
  /\ executed (snd server) = []
  /\ exists status reply,
       fst server = Return (status, reply)
       /\ (status = 400%Z
           \/ (status = 500%Z
               /\ reply = VObj [("error", VStr "Erro interno do servidor");
                                ("details", VStr typeErrorText)])).
Proof.
  intros Hname Hsort.
  assert (Horder : forall sql, Shared.order_by (lookup "sort" body) sql = None).
  { intros sql. unfold Shared.order_by, Shared.length_positive.
    destruct Hsort as [(s & -> & Hs) | (entries & -> & Hin)].
    - destruct s as [|c s]; [contradiction|]. cbn [truthy prop String.eqb Ascii.eqb Bool.eqb].
      cbn. reflexivity.
    - destruct entries as [|entry entries]; [contradiction|].
      cbn [truthy prop String.eqb Ascii.eqb Bool.eqb List.length andb].
      replace (0 <? Z.of_nat (S (List.length entries)))%Z with true
        by (symmetry; apply Z.ltb_lt; lia).
      assert (Hex : existsb nullish (entry :: entries) = true)
        by (apply existsb_exists; exists VNull; split; [exact Hin | reflexivity]).
      now rewrite Hex. }
  cbv zeta. unfold Routes.hostinger_data_find, Routes.server_data_find.
  rewrite !handler_executed.
  assert (Hh : Hostinger.data_find body = Thrown).
  { unfold Hostinger.data_find. rewrite Hname. cbn [negb].
    destruct (truthy _ && _); cbv beta iota zeta; now rewrite Horder. }
  assert (Hs : Server.data_find body = Thrown
               \/ exists reply, Server.data_find body = Reply 400 reply).
  { unfold Server.data_find. rewrite Hname. cbn [negb]. unfold Server.where_clause.
    destruct (truthy _ && _); cbv beta iota zeta; [|rewrite Horder; now left].
    destruct (negb _); [right; eauto|].
    destruct (is_str "$hasSome" _).
    - destruct (prop "value" _); try solve [right; eauto]; rewrite Horder; now left.
    - destruct (is_str "$eq" _); rewrite Horder; now left. }
  rewrite Hh. split; [reflexivity|]. split; [reflexivity|].
  destruct Hs as [-> | [reply ->]].
  - split; [reflexivity|]. eexists _, _. split; [reflexivity|]. right. now split.
  - split; [reflexivity|]. eexists _, _. split; [reflexivity|]. now left.
Qed.

End Finding.

Lemma data_find_counts_whole_table_witness :
  executed
    (snd (@Routes.hostinger_data_find mysql2
            (Return (Fixture.answering (VArr [VObj [("totalCount", VNum 9)]]))) ""
            (fun _ => false) (fun _ => Throw TypeError)
            [("collectionName", VStr "t"); ("filter", Sample.flat_filter);
             ("returnTotalCount", VBool true)]))
  = [("SELECT * FROM `t` WHERE `name` = ? AND `age` = ?", [VStr "a"; VNum 5]);
     ("SELECT COUNT(*) AS totalCount FROM `t`", [])].
Proof.
  destruct (proj1 (@data_find_counts_whole_table mysql2
              (Return (Fixture.answering (VArr [VObj [("totalCount", VNum 9)]]))) ""
              (fun _ => false) (fun _ => Throw TypeError)
              [("collectionName", VStr "t"); ("filter", Sample.flat_filter);
               ("returnTotalCount", VBool true)]))
    as [H | (sql & params & Hb & [H | [_ H]])]; try discriminate H.
  injection Hb as <- <-. exact H.
Defined.

Lemma server_data_find_empty_witness :
  fst (@Routes.server_data_find mysql2 (Return (Fixture.answering (VArr []))) ""
         (fun _ => false) (fun _ => Throw TypeError)
         (("returnTotalCount", VBool true) :: Sample.find_request))
  = Return (200%Z, VObj [("items", VArr [])]).
Proof.
  exact (proj1 (@server_data_find_empty mysql2 (Return (Fixture.answering (VArr []))) ""
                  (fun _ => false) (fun _ => Throw TypeError)
                  (("returnTotalCount", VBool true) :: Sample.find_request)
                  _ _ _ (VArr []) eq_refl eq_refl eq_refl (or_introl eq_refl))).
Defined.

Lemma data_find_malformed_sort_witness :
  fst (@Routes.hostinger_data_find mysql2 (Return (Fixture.answering (VArr []))) ""
         (fun _ => false) (fun _ => Throw TypeError)
         [("collectionName", VStr "t"); ("sort", VStr "name")])
  = Return (500%Z, error_body "Erro interno do servidor").
Proof.
  refine (proj1 (@data_find_malformed_sort mysql2 (Return (Fixture.answering (VArr [])))
                   "" (fun _ => false) (fun _ => Throw TypeError)
                   [("collectionName", VStr "t"); ("sort", VStr "name")] eq_refl _)).
  left. exists "name". split; [reflexivity | discriminate].
Defined.

(** *** items/find *)

(** X24.  items/find reads a falsy [limit] or [offset] as an absent one:
    with [limit: 0] the statement has no LIMIT and every row is asked for,
    as if the request had no [limit] at all. *)
Theorem items_find_falsy_page {P : Platform} (body : list (string * value))
    (name : string) :
  name = "limit" \/ name = "offset" ->
  truthy (lookup name body) = false ->
  Shared.items_find body = Shared.items_find (without [name] body).
Proof.
  intros Hname Hfalsy. unfold Shared.items_find. rewrite !lookup_without.
  destruct Hname as [-> | ->]; cbn [existsb String.eqb Ascii.eqb Bool.eqb orb];
    rewrite Hfalsy; reflexivity.
Qed.

Lemma items_find_falsy_page_witness :
  @Shared.items_find mysql2 [("table", VStr "t"); ("limit", VNum 0)]
  = Statement "SELECT * FROM `t`" [].
Proof.
  rewrite (@items_find_falsy_page mysql2 [("table", VStr "t"); ("limit", VNum 0)] "limit"
             (or_introl eq_refl) eq_refl).
  reflexivity.
Defined.

(** *** The rows of data/find on their way out *)

Lemma lookup_delete (k key : string) (o : list (string * value)) :
  lookup key (Routes.delete k o) = if k =? key then VUndefined else lookup key o.
Proof.
  induction o as [|[k' v] o IH]; cbn [Routes.delete filter lookup].
  - now destruct (k =? key).
  - fold (Routes.delete k o).
    destruct (String.eqb_spec k' k) as [->|Hneq]; cbn [negb lookup].
    + rewrite IH. now destruct (k =? key).
    + rewrite IH. destruct (String.eqb_spec k' key) as [->|_]; [|reflexivity].
      apply String.eqb_neq in Hneq. rewrite String.eqb_sym in Hneq. now rewrite Hneq.
Qed.

Lemma format_each_fails (format : nat -> value -> io value) (index : nat)
    (items : list value) (item : value) :
  In item items ->
  (forall index, exists err, fst (format index item) = Throw err) ->
  exists err, fst (Routes.format_each format index items) = Throw err.
Proof.
  intros Hin Hfail. revert index.
  induction items as [|x rest IH]; intros index; [contradiction|].
  cbn [Routes.format_each]. rewrite bind_cases.
  destruct (fst (format index x)) as [a|err] eqn:Hx; [|eexists; reflexivity].
  destruct Hin as [-> | Hin].
  - destruct (Hfail index) as [err Herr]. congruence.
  - cbn [fst]. rewrite bind_cases. destruct (IH Hin (S index)) as [err ->].
    eexists; reflexivity.
Qed.

Section Dates.
Context {P : Platform}.
Variable getConnection : completion connection.
Variable typeErrorText : string.
Variable isDate : value -> bool.
Variable toISOString : value -> completion value.

(** X25.  In the server next to queryExecutor.js the [map] callback of
    data/find passes every column of a row on unchanged except
    [date_added]: a [date_added] that is a Date becomes
    [{$date: <its ISO string>}], and any other [date_added] (a string, a
    number, [null]) is dropped from the item. *)
Theorem server_format_columns (index : nat) (item formatted : value) :
  fst (Routes.server_format isDate toISOString index item) = Return formatted ->
  exists columns,
    formatted = VObj columns
    /\ (forall key, key <> "date_added" -> lookup key columns = lookup key (entries item))
    /\ if Routes.instanceof_Date isDate (lookup "date_added" (entries item))
       then exists iso,
              toISOString (lookup "date_added" (entries item)) = Return iso
              /\ lookup "date_added" columns = VObj [("$date", iso)]
       else lookup "date_added" columns = VUndefined.
Proof.
  unfold Routes.server_format.
  destruct (Routes.instanceof_Date isDate _).
  - destruct (toISOString _) as [iso|]; cbn [bind fst ret]; [|discriminate].
    intros [= <-]. eexists. split; [reflexivity|]. split.
    + intros key Hkey. rewrite lookup_set.
      destruct (String.eqb_spec "date_added" key); [congruence | reflexivity].
    + exists iso. split; [reflexivity|]. now rewrite lookup_set, String.eqb_refl.
  - cbn [ret fst]. intros [= <-]. eexists. split; [reflexivity|]. split.
    + intros key Hkey. rewrite lookup_delete.
      destruct (String.eqb_spec "date_added" key); [congruence | reflexivity].
    + now rewrite lookup_delete, String.eqb_refl.
Qed.

(** X26.  In WIX - HOSTINGER - 1.0 one row is enough to fail a whole
    data/find: when a row of the result has a truthy [date_added] that is
    not a Date (a date string, say), the request is answered 500 and no
    item is returned (the driver and the date formatting never rejecting
    with [null] or [undefined]). *)
Theorem hostinger_find_needs_dates (body : list (string * value))
    (connection : connection) (sql : string) (params rows : list value) (row : value) :
  proper_driver getConnection ->
  (forall date err, toISOString date = Throw err -> proper err) ->
  getConnection = Return connection ->
  Hostinger.data_find body = Statement sql params ->
  execute connection sql params = Return (VArr rows) ->
  In row rows ->
  truthy (lookup "date_added" (entries row)) = true ->
  Routes.instanceof_Date isDate (lookup "date_added" (entries row)) = false ->
  fst (Routes.hostinger_data_find getConnection typeErrorText isDate toISOString body)
  = Return (500%Z, error_body "Erro interno do servidor").
Proof.
  intros Hdriver Hdates Hc Hb Hrun Hin Htruthy Hnodate.
  unfold Routes.hostinger_data_find. rewrite Hb, try_catch_cases.
  rewrite (run_outcome getConnection false sql params _ connection Hc), Hrun.
  cbn [or_else truthy]. rewrite bind_cases. cbn [emit fst snd].
  assert (Hrow : forall index, exists err,
             fst (Routes.hostinger_format isDate toISOString index row) = Throw err).
  { intros index. unfold Routes.hostinger_format. rewrite Htruthy, Hnodate.
    exists TypeError. reflexivity. }
  destruct (format_each_fails _ 0 rows row Hin Hrow) as [err Herr].
  pose proof (format_each_throws_properly
                (Routes.hostinger_format isDate toISOString) 0 rows
                (hostinger_format_throws_properly isDate toISOString Hdates)) as Hp.
  unfold throws_properly in Hp. rewrite Herr in Hp.
  pose proof (total_count_throws_properly getConnection Hdriver
                (escapeId (lookup "collectionName" body))) as Hcount.
  unfold throws_properly in Hcount.
  assert (Hfails : exists err,
             proper err
             /\ fst (totalCount <-
                       (if truthy (lookup "returnTotalCount" body)
                        then Routes.total_count getConnection
                               (escapeId (lookup "collectionName" body))
                        else ret VNull) ;;
                     formattedItems <-
                       Routes.format_each (Routes.hostinger_format isDate toISOString)
                         0 rows ;;
                     ret (200%Z,
                          Routes.find_response (lookup "returnTotalCount" body)
                            totalCount formattedItems))%io
                = Throw err).
  { rewrite bind_cases.
    destruct (truthy (lookup "returnTotalCount" body)).
    - destruct (fst (Routes.total_count _ _)) as [totalCount|e];
        [|exists e; split; [exact Hcount | reflexivity]].
      cbn [fst]. rewrite bind_cases, Herr. exists err. split; [exact Hp | reflexivity].
    - cbn [ret fst]. rewrite bind_cases, Herr. exists err. split; [exact Hp | reflexivity]. }
  destruct Hfails as (e & He & ->).
  destruct (caught_answers typeErrorText "Erro ao buscar itens:" 500
              Routes.internal_error e) as [msg ->]; [|reflexivity].
  intros reason ->. exact He.
Qed.

End Dates.

Lemma server_format_columns_witness :
  fst (Routes.server_format (fun _ => false) (fun _ => Throw TypeError) 0
         (VObj [("_id", VNum 1); ("date_added", VStr "2024-01-01"); ("name", VStr "a")]))
  = Return (VObj [("_id", VNum 1); ("name", VStr "a")])
  /\ exists columns,
       VObj [("_id", VNum 1); ("name", VStr "a")] = VObj columns
       /\ lookup "name" columns = VStr "a"
       /\ lookup "date_added" columns = VUndefined.
Proof.
  split; [reflexivity|].
  destruct (server_format_columns (fun _ => false) (fun _ => Throw TypeError) 0
              (VObj [("_id", VNum 1); ("date_added", VStr "2024-01-01");
                     ("name", VStr "a")]) _ eq_refl)
    as (columns & Heq & Hkeep & Hdate).
  exists columns. split; [exact Heq|]. split; [|exact Hdate].
  rewrite (Hkeep "name"); [reflexivity | discriminate].
Defined.

Lemma hostinger_find_needs_dates_witness :
  fst (@Routes.hostinger_data_find mysql2
         (Return (Fixture.answering
                    (VArr [VObj [("_id", VNum 1); ("date_added", VStr "2024-01-01")]])))
         "" (fun _ => false) (fun _ => Throw TypeError)
         [("collectionName", VStr "t")])
  = Return (500%Z, error_body "Erro interno do servidor").
Proof.
  refine (@hostinger_find_needs_dates mysql2 _ "" (fun _ => false)
            (fun _ => Throw TypeError) [("collectionName", VStr "t")]
            (Fixture.answering
               (VArr [VObj [("_id", VNum 1); ("date_added", VStr "2024-01-01")]]))
            _ _ _ (VObj [("_id", VNum 1); ("date_added", VStr "2024-01-01")])
            _ _ eq_refl eq_refl eq_refl (or_introl eq_refl) eq_refl eq_refl).
  - intros query binds err H. discriminate H.
  - intros date err [= <-]. exact I.
Defined.
